(** * Signal fusion of the emotion visualizer: a shallow embedding

    Numbers of the TypeScript source are modelled as exact rationals [Q]
    (the JavaScript doubles are idealised); counters as [nat]; byte
    samples of a [Uint8Array] as [Byte.byte].  A JavaScript [TypeError]
    (reading a field of an [undefined] landmark) is an explicit outcome. *)

From Stdlib Require Import QArith Qminmax Lqa List Lia ZArith Arith.
From Stdlib Require Strings.Byte.
Import ListNotations.
Open Scope Q_scope.

(** ** Data model (src/types.ts, src/constants.ts) *)

Inductive Emotion := HAPPY | CALM | SAD.

Definition Emotion_eq_dec (a b : Emotion) : {a = b} + {a <> b}.
Proof. decide equality. Defined.

Definition Emotion_eqb (a b : Emotion) : bool :=
  match a, b with
  | HAPPY, HAPPY | CALM, CALM | SAD, SAD => true
  | _, _ => false
  end.

(** CONFIG.happyMusicRate and CONFIG.sadMusicRate (src/constants.ts). *)
Definition happyMusicRate : Q := 115 # 100.
Definition sadMusicRate : Q := 85 # 100.

(** The JavaScript comparison [a < b] on numbers. *)
Definition Qlt_bool (a b : Q) : bool := negb (Qle_bool b a).


(** A thrown JavaScript error, or a normal result. *)
Inductive JsError := TypeError.

Inductive outcome (A : Type) :=
| Ok (a : A)
| Throws (e : JsError).
Arguments Ok {A} a.
Arguments Throws {A} e.

(** A normalized landmark of the tracking collaborator ([x], [y] in image space). *)
Record Point := mkPoint { x : Q; y : Q }.

(** [landmarks[i]] followed by a field read: [undefined.x] throws. *)
Definition landmarkAt (lms : list Point) (i : nat) : outcome Point :=
  match nth_error lms i with
  | Some p => Ok p
  | None => Throws TypeError
  end.

(** ** Emotion classifier of src/App.tsx (initFaceMesh, steps 4 and 5) *)

(** Step 4: candidate from the smoothed curvature (positive = frown). *)
Definition candidateOf (curvature : Q) : Emotion :=
  if Qlt_bool curvature (-2 # 100) then HAPPY
  else if Qlt_bool (5 # 100) curvature then SAD
  else CALM.

(** Step 5: the debounce on [emotionTimerRef] and [stableEmotionRef].
    The pair is (timer, stable emotion). *)
Definition debounce (currentEmotion : Emotion) (st : nat * Emotion) : nat * Emotion :=
  let '(timer, stable) := st in
  if negb (Emotion_eqb currentEmotion stable) then
    let timer' := S timer in
    if Nat.ltb 5 timer' then (0%nat, currentEmotion) else (timer', stable)
  else (0%nat, stable).

(** The debounce driven by a sequence of per-frame candidates (oldest first). *)
Fixpoint debounceRun (cands : list Emotion) (st : nat * Emotion) : nat * Emotion :=
  match cands with
  | [] => st
  | c :: cs => debounceRun cs (debounce c st)
  end.

Definition debounceInit : nat * Emotion := (0%nat, CALM).

Definition committedAfter (cands : list Emotion) : Emotion :=
  snd (debounceRun cands debounceInit).

(** [x || 1] on a number: [0] (and [NaN], absent from [Q]) is falsy. *)
Definition orOne (v : Q) : Q := if Qeq_bool v 0 then 1 else v.

(** [Math.min(Math.max(v, 0), 1)]. *)
Definition clamp01 (v : Q) : Q := Qmin (Qmax v 0) 1.

(** The per-emotion music rate of the audio loop of src/App.tsx (lines 213-218). *)
Definition targetRate (e : Emotion) : Q :=
  match e with
  | HAPPY => happyMusicRate
  | SAD => sadMusicRate
  | CALM => 1
  end.

(** [rate + (target - rate) * k]: the blending step used for rates and
    colour channels alike. *)
Definition blend (cur target k : Q) : Q := cur + (target - cur) * k.

(** ** Audio frames: a [Uint8Array] filled by [getByteFrequencyData] *)

Definition byteVal (b : Byte.byte) : Z := Z.of_nat (Byte.to_nat b).

(** [for (i ...) sum += dataArray[i]] *)
Fixpoint sumBytes (l : list Byte.byte) : Z :=
  match l with
  | [] => 0%Z
  | b :: t => (byteVal b + sumBytes t)%Z
  end.

(** [for (i ...) numerator += i * dataArray[i]], the loop started at index [i]. *)
Fixpoint weightedFrom (i : Z) (l : list Byte.byte) : Z :=
  match l with
  | [] => 0%Z
  | b :: t => (i * byteVal b + weightedFrom (i + 1) t)%Z
  end.

(** [analyser.fftSize = 512] in src/App.tsx, so [frequencyBinCount] is 256. *)
Definition fftSize : nat := 512.
Definition frequencyBinCount : nat := Nat.div fftSize 2.

(** [sum / (bufferLength * 255)] *)
Definition amplitudeOf (dataArray : list Byte.byte) : Q :=
  inject_Z (sumBytes dataArray) / inject_Z (Z.of_nat (length dataArray) * 255).

(** [denominator > 0 ? numerator / denominator : 0] *)
Definition centroidOf (dataArray : list Byte.byte) : Q :=
  let numerator := weightedFrom 0 dataArray in
  let denominator := sumBytes dataArray in
  if Z.ltb 0 denominator then inject_Z numerator / inject_Z denominator else 0.

(** [centroid / bufferLength] *)
Definition normalizedFreqOf (dataArray : list Byte.byte) : Q :=
  centroidOf dataArray / inject_Z (Z.of_nat (length dataArray)).

(** ** src/App.tsx *)
Module AppTsx.

Record SystemState := mkSystemState {
  emotion : Emotion;
  mouthOpenness : Q;
  soundAmplitude : Q;
  soundFrequency : Q
}.

Definition initialSystemState : SystemState := mkSystemState CALM 0 0 0.

(** [smoothMouthRef], [smoothCurvatureRef], [emotionTimerRef], [stableEmotionRef]. *)
Record FaceRefs := mkFaceRefs {
  smoothMouth : Q;
  smoothCurvature : Q;
  emotionTimer : nat;
  stableEmotion : Emotion
}.

Definition initialFaceRefs : FaceRefs := mkFaceRefs 0 0 0 CALM.

Record State := mkState { sys : SystemState; refs : FaceRefs }.

Section Face.
(** [Math.hypot]; irrational in general, so left abstract. *)
Variable hypot : Q -> Q -> Q.

Definition mouthWOf (leftCorner rightCorner : Point) : Q := hypot (x rightCorner - x leftCorner) (y rightCorner - y leftCorner).
Definition mouthHOf (top bottom : Point) : Q := hypot (x bottom - x top) (y bottom - y top).

(** [mouthW > 0 ? mouthH / mouthW : 0] *)
Definition rawRatioOf (mouthW mouthH : Q) : Q :=
  if Qlt_bool 0 mouthW then mouthH / mouthW else 0.

(** [(cornersY - centerY) / (mouthW * 0.5 || 1)] *)
Definition rawCurvatureOf (leftCorner rightCorner top bottom : Point) (mouthW : Q) : Q :=
  let centerY := (y top + y bottom) / 2 in
  let cornersY := (y leftCorner + y rightCorner) / 2 in
  (cornersY - centerY) / orOne (mouthW * (1 # 2)).

Definition smoothFactor : Q := 15 # 100.

(** The body of the [if] in [faceMesh.onResults], lines 60-127. *)
Definition faceUpdate (leftCorner rightCorner top bottom : Point) (s : State) : State :=
  let mouthW := mouthWOf leftCorner rightCorner in
  let mouthH := mouthHOf top bottom in
  let rawRatio := rawRatioOf mouthW mouthH in
  let rawCurvature := rawCurvatureOf leftCorner rightCorner top bottom mouthW in
  let r := refs s in
  let smoothMouth' := smoothMouth r + (rawRatio - smoothMouth r) * smoothFactor in
  let smoothCurvature' := smoothCurvature r + (rawCurvature - smoothCurvature r) * smoothFactor in
  let currentEmotion := candidateOf smoothCurvature' in
  let '(timer', stable') := debounce currentEmotion (emotionTimer r, stableEmotion r) in
  let sy := sys s in
  mkState
    (mkSystemState stable' (clamp01 smoothMouth') (soundAmplitude sy) (soundFrequency sy))
    (mkFaceRefs smoothMouth' smoothCurvature' timer' stable').

(** [faceMesh.onResults]: [results.multiFaceLandmarks] may be absent. *)
Definition onResults (multiFaceLandmarks : option (list (list Point))) (s : State)
  : outcome State :=
  match multiFaceLandmarks with
  | Some (landmarks :: _) =>
      match landmarkAt landmarks 61, landmarkAt landmarks 291,
            landmarkAt landmarks 13, landmarkAt landmarks 14 with
      | Ok leftCorner, Ok rightCorner, Ok top, Ok bottom => Ok (faceUpdate leftCorner rightCorner top bottom s)
      | _, _, _, _ => Throws TypeError
      end
  | _ => Ok s
  end.

(** A sequence of face frames; a [TypeError] escapes before any write
    (all four landmarks are read on lines 73-74), so the state is kept. *)
Fixpoint faceRun (frames : list (option (list (list Point)))) (s : State) : State :=
  match frames with
  | [] => s
  | f :: rest =>
      match onResults f s with
      | Ok s' => faceRun rest s'
      | Throws _ => faceRun rest s
      end
  end.

Definition initialState : State := mkState initialSystemState initialFaceRefs.

End Face.

(** One tick of the audio analysis interval (lines 186-224), with the
    analyser present; [playbackRate] is [None] without an audio element. *)
Definition audioTick (dataArray : list Byte.byte) (s : SystemState) (playbackRate : option Q)
  : SystemState * option Q :=
  let amplitude := amplitudeOf dataArray in
  let normalizedFreq := normalizedFreqOf dataArray in
  let s' := mkSystemState (emotion s) (mouthOpenness s) amplitude normalizedFreq in
  let rate' :=
    match playbackRate with
    | Some currentRate => Some (blend currentRate (targetRate (emotion s')) (5 # 100))
    | None => None
    end in
  (s', rate').

(** A run of audio ticks: each tick reads the shared state as the vision
    path left it (any emotion), with the rate carried from tick to tick. *)
Fixpoint playbackRateAfter (rate : Q) (ticks : list (list Byte.byte * SystemState)) : Q :=
  match ticks with
  | [] => rate
  | (d, s) :: rest =>
      match snd (audioTick d s (Some rate)) with
      | Some r => playbackRateAfter r rest
      | None => rate
      end
  end.

(** [new Audio()] starts at playback rate 1.0. *)
Definition initialPlaybackRate : Q := 1.

End AppTsx.

(** ** The generative variant of App (src/types.ts, lines 30-378) *)
Module Generative.

Record HandPosition := mkHandPosition { hx : Q; hy : Q }.

Record SystemState := mkSystemState {
  emotion : Emotion;
  mouthOpenness : Q;
  mouthCurvature : Q;
  soundAmplitude : Q;
  soundFrequency : Q;
  handPosition : HandPosition;
  isFist : bool
}.

Definition initialSystemState : SystemState :=
  mkSystemState CALM 0 0 0 0 (mkHandPosition 0 0) false.

Section Hands.
Variable hypot : Q -> Q -> Q.

(** [[8, 12, 16, 20].forEach(idx => tipToMcpDist += Math.hypot(...))]:
    [tip.x] throws on a missing landmark. *)
Fixpoint tipDistSum (landmarks : list Point) (palmCenter : Point) (idxs : list nat) (acc : Q)
  : outcome Q :=
  match idxs with
  | [] => Ok acc
  | idx :: rest =>
      match landmarkAt landmarks idx with
      | Ok tip =>
          tipDistSum landmarks palmCenter rest
            (acc + hypot (x tip - x palmCenter) (y tip - y palmCenter))
      | Throws e => Throws e
      end
  end.

(** [hands.onResults], lines 91-113 ([landmarks[0]], the wrist, is never read). *)
Definition onHandResults (multiHandLandmarks : option (list (list Point))) (s : SystemState)
  : outcome SystemState :=
  match multiHandLandmarks with
  | Some (landmarks :: _) =>
      match landmarkAt landmarks 9 with
      | Ok palmCenter =>
          let px := (1 - x palmCenter) * 2 - 1 in
          let py := - (y palmCenter) * 2 + 1 in
          match tipDistSum landmarks palmCenter [8; 12; 16; 20]%nat 0 with
          | Ok tipToMcpDist =>
              let fist := Qlt_bool tipToMcpDist (35 # 100) in
              Ok (mkSystemState (emotion s) (mouthOpenness s) (mouthCurvature s)
                    (soundAmplitude s) (soundFrequency s) (mkHandPosition px py) fist)
          | Throws e => Throws e
          end
      | Throws e => Throws e
      end
  | _ => Ok s
  end.

End Hands.

(** Step 1 of the generative update loop (lines 257-265); the wind
    modulation that follows writes only audio nodes. *)
Definition audioTick (dataArray : list Byte.byte) (s : SystemState) : SystemState :=
  let amplitude := amplitudeOf dataArray in
  mkSystemState (emotion s) (mouthOpenness s) (mouthCurvature s)
    (soundAmplitude s * (9 # 10) + amplitude * (1 # 10))
    (soundFrequency s) (handPosition s) (isFist s).

End Generative.

(** ** The render loop: src/components/VisualizerCanvas.tsx and src/unnamed/part_002 *)
Module Canvas.

(** A [THREE.Color]: three channels. *)
Record Color := mkColor { cr : Q; cg : Q; cb : Q }.

(** [new THREE.Color(hex)] / [setHex(hex)]: channels [byte / 255]. *)
Definition hexColor (hex : Z) : Color :=
  mkColor (inject_Z (Z.land (Z.shiftr hex 16) 255) / 255)
          (inject_Z (Z.land (Z.shiftr hex 8) 255) / 255)
          (inject_Z (Z.land hex 255) / 255).

(** [Color.lerp(target, alpha)]: each channel [c += (t - c) * alpha]. *)
Definition lerpColor (c t : Color) (alpha : Q) : Color :=
  mkColor (blend (cr c) (cr t) alpha) (blend (cg c) (cg t) alpha) (blend (cb c) (cb t) alpha).

(** CONFIG.happyColor, calmColor, sadColor (src/constants.ts). *)
Definition happyColor : Z := 16722432.  (* 0xFF2A00 *)
Definition calmColor : Z := 65493.      (* 0x00FFD5 *)
Definition sadColor : Z := 6422783.     (* 0x6200FF *)

(** Targets (base, tip, sun) of step 2 of [animate]; every emotion sets all three. *)
Definition colorTargets (e : Emotion) : Color * Color * Color :=
  match e with
  | CALM => (hexColor 1714698 (* 0x1a2a0a *), hexColor calmColor, hexColor 16755251 (* 0xffaa33 *))
  | HAPPY => (hexColor 17408 (* 0x004400 *), hexColor happyColor, hexColor 16777164 (* 0xffffcc *))
  | SAD => (hexColor 331802 (* 0x05101a *), hexColor sadColor, hexColor 8952234 (* 0x8899aa *))
  end.

(** The blended values of VisualizerCanvas.tsx kept from frame to frame. *)
Record Blend := mkBlend {
  baseColor : Color;   (* uBaseColor *)
  tipColor : Color;    (* uTipColor *)
  sunColor : Color;    (* sunLight.color *)
  windStrength : Q     (* uWindStrength *)
}.

(** Steps 2 and 3 of [animate] (lines 277-316), not paused, material present. *)
Definition animate (emotion : Emotion) (soundAmplitude : Q) (b : Blend) : Blend :=
  let '(targetBase, targetTip, sunTarget) := colorTargets emotion in
  mkBlend (lerpColor (baseColor b) targetBase (5 # 100))
          (lerpColor (tipColor b) targetTip (5 # 100))
          (lerpColor (sunColor b) sunTarget (5 # 100))
          ((1 # 2) + soundAmplitude * 5).

(** The weather and halo scalars of part_002 ([currentWeather.current] and
    [uOpacity]), lines 650-683. *)
Record Weather := mkWeather { speed : Q; sway : Q; size : Q; haloOpacity : Q }.

Definition weatherTargets (e : Emotion) : Weather :=
  match e with
  | CALM => mkWeather 6 2 5 (4 # 10)
  | HAPPY => mkWeather 8 (15 # 10) 4 (8 # 10)
  | SAD => mkWeather 25 (5 # 10) (25 # 10) 0
  end.

Definition animateWeather (emotion : Emotion) (w : Weather) : Weather :=
  let t := weatherTargets emotion in
  mkWeather (blend (speed w) (speed t) (5 # 100))
            (blend (sway w) (sway t) (5 # 100))
            (blend (size w) (size t) (5 # 100))
            (blend (haloOpacity w) (haloOpacity t) (2 # 100)).

End Canvas.

(** ** The runtime of src/App.tsx: status, pause and the three producers *)
Module Runtime.

(** [AppStatus] (src/unnamed/part_000). *)
Inductive AppStatus := IDLE | LOADING | READY | RUNNING | PAUSED | ERROR.

(** [AudioContext.state] as this program can leave it. *)
Inductive CtxState := CtxRunning | CtxSuspended.

Record Runtime := mkRuntime {
  status : AppStatus;
  app : AppTsx.State;            (* systemStateRef and the face refs *)
  playbackRate : Q;              (* audioElementRef.current.playbackRate *)
  ctxState : CtxState;           (* audioContextRef.current.state *)
  elementPaused : bool;          (* audioElementRef.current.paused *)
  uiState : AppTsx.SystemState   (* the snapshot shown by the Overlay *)
}.

(** How the [audioElementRef.current.play()] promise settles; a rejection
    comes with the element's [paused] flag as the browser leaves it. *)
Inductive PlayResult := PlayResolved | PlayRejected (pausedAfter : bool).

(** [togglePause] (lines 268-286), with the audio context and element
    present (both exist after [initAudio]); [suspend()] and [resume()]
    resolve (they reject only on a closed context, which this program never
    closes). A rejected [play()] throws at line 282, before
    [setStatus(RUNNING)]: the status stays PAUSED with the context already
    resumed. *)
Definition togglePause (play : PlayResult) (r : Runtime) : Runtime :=
  match status r with
  | RUNNING =>
      mkRuntime PAUSED (app r) (playbackRate r)
        (match ctxState r with CtxRunning => CtxSuspended | c => c end)
        true (uiState r)
  | PAUSED =>
      let ctx' := match ctxState r with CtxSuspended => CtxRunning | c => c end in
      match play with
      | PlayResolved => mkRuntime RUNNING (app r) (playbackRate r) ctx' false (uiState r)
      | PlayRejected pausedAfter =>
          mkRuntime PAUSED (app r) (playbackRate r) ctx' pausedAfter (uiState r)
      end
  | _ => r
  end.

Inductive Event :=
| FaceFrame (multiFaceLandmarks : option (list (list Point)))
| AudioFrame (dataArray : list Byte.byte)
| UiTick
| TogglePause (play : PlayResult).

Section Step.
Variable hypot : Q -> Q -> Q.

(** The effect of each callback when it runs. None of the three bodies
    reads [status]: [faceMesh.onResults] (lines 58-129) has no status
    check, so a result of an earlier [send] lands even after a pause, and
    the audio and UI interval bodies (lines 186-224, 293-295) run until the
    effect cleanup clears them after a re-render. Which callbacks fire,
    and when, is left to the event sequence. A [TypeError] thrown by
    [onResults] leaves the state as it was. *)
Definition step (ev : Event) (r : Runtime) : Runtime :=
  match ev with
  | TogglePause play => togglePause play r
  | FaceFrame f =>
      match AppTsx.onResults hypot f (app r) with
      | Ok a => mkRuntime (status r) a (playbackRate r) (ctxState r) (elementPaused r) (uiState r)
      | Throws _ => r
      end
  | AudioFrame d =>
      let '(s', rate') := AppTsx.audioTick d (AppTsx.sys (app r)) (Some (playbackRate r)) in
      mkRuntime (status r) (AppTsx.mkState s' (AppTsx.refs (app r)))
        (match rate' with Some q => q | None => playbackRate r end)
        (ctxState r) (elementPaused r) (uiState r)
  | UiTick =>
      mkRuntime (status r) (app r) (playbackRate r) (ctxState r) (elementPaused r)
        (AppTsx.sys (app r))
  end.

Fixpoint run (evs : list Event) (r : Runtime) : Runtime :=
  match evs with
  | [] => r
  | ev :: rest => run rest (step ev r)
  end.

End Step.

(** The runtime right after a successful [handleStart]. *)
Definition started : Runtime :=
  mkRuntime RUNNING AppTsx.initialState AppTsx.initialPlaybackRate CtxRunning false
    AppTsx.initialSystemState.

End Runtime.

(** ** The player physics of the render loop (src/unnamed/part_002, lines 494-525) *)
Module Movement.

Definition WORLD_EXTENT : Q := 5000.
Definition maxRange : Q := WORLD_EXTENT - 100.
Definition deadzone : Q := 15 # 100.
Definition moveSpeed : Q := 6 # 10.

(** [playerVelocity] (x, y) and the x and z of [playerPosition]. *)
Record Physics := mkPhysics { velX : Q; velY : Q; posX : Q; posZ : Q }.

(** [new Vector2(0, 0)], [new Vector3(0, 6, 0)]. *)
Definition initialPhysics : Physics := mkPhysics 0 0 0 0.

(** The two bound checks applied to one coordinate. *)
Definition limit (v : Q) : Q :=
  let v1 := if Qlt_bool maxRange v then maxRange else v in
  if Qlt_bool v1 (- maxRange) then - maxRange else v1.

Section Move.
(** [Math.sqrt], left abstract. *)
Variable sqrt : Q -> Q.

Definition step (joyX joyY : Q) (isFist : bool) (p : Physics) : Physics :=
  let dist := sqrt (joyX * joyX + joyY * joyY) in
  let '(speed, turn) :=
    if Qlt_bool deadzone dist then ((dist - deadzone) * 2, joyX * (25 # 10)) else (0, 0) in
  let directionZ := if isFist then 1 else -1 in
  let targetVelX := turn in
  let targetVelZ := speed * directionZ in
  let vx := velX p * (9 # 10) + targetVelX * (1 # 10) in
  let vy := velY p * (9 # 10) + targetVelZ * (1 # 10) in
  mkPhysics vx vy (limit (posX p + vx * moveSpeed)) (limit (posZ p + vy * moveSpeed)).

(** Frames driven by the hand state (handPosition.x, handPosition.y, isFist). *)
Fixpoint run (inputs : list (Q * Q * bool)) (p : Physics) : Physics :=
  match inputs with
  | [] => p
  | (jx, jy, f) :: rest => run rest (step jx jy f p)
  end.

End Move.
End Movement.

(** ** Weather state of part_002 across frames *)

(** [currentWeather] starts at speed 10, sway 1, size 4; [uOpacity] at 0. *)
Definition initialWeather : Canvas.Weather := Canvas.mkWeather 10 1 4 0.

Fixpoint weatherRun (es : list Emotion) (w : Canvas.Weather) : Canvas.Weather :=
  match es with
  | [] => w
  | e :: rest => weatherRun rest (Canvas.animateWeather e w)
  end.

(** The two other lerped colours of part_002: the weather particles'
    [currentWeather.color] (line 665) and the sun halo's [uColor]
    (line 679). *)
Record Sky := mkSky { weatherColor : Canvas.Color; haloColor : Canvas.Color }.

(** [targetWeatherColor] and [targetHaloColor] per emotion (lines 595-648);
    the SAD branch leaves [targetHaloColor] at its initial 0xffaa33. *)
Definition skyTargets (e : Emotion) : Canvas.Color * Canvas.Color :=
  match e with
  | CALM => (Canvas.hexColor 15122985 (* 0xE6C229 *), Canvas.hexColor 16755200 (* 0xffaa00 *))
  | HAPPY => (Canvas.hexColor 8978312 (* 0x88FF88 *), Canvas.hexColor 16776928 (* 0xfffee0 *))
  | SAD => (Canvas.hexColor 14540287 (* 0xDDDDFF *), Canvas.hexColor 16755251 (* 0xffaa33 *))
  end.

Definition animateSky (e : Emotion) (k : Sky) : Sky :=
  let '(weatherTarget, haloTarget) := skyTargets e in
  mkSky (Canvas.lerpColor (weatherColor k) weatherTarget (5 # 100))
        (Canvas.lerpColor (haloColor k) haloTarget (5 # 100)).

(** ** The sphere visualizer of part_002 (lines 837-900) *)

(** [THREE.MathUtils.lerp(x, y, t) = (1 - t) * x + t * y]. *)
Definition mathLerp (x0 y0 t : Q) : Q := (1 - t) * x0 + t * y0.

(** [sphere.scale.setScalar(lerp(scale.x, 1 + soundAmplitude * 0.3, 0.2))]. *)
Definition sphereScaleStep (soundAmplitude scale : Q) : Q :=
  mathLerp scale (1 + soundAmplitude * (3 # 10)) (2 # 10).

(** Frames reading the amplitude the audio tick of part_001 wrote. *)
Fixpoint sphereScaleRun (frames : list (list Byte.byte)) (scale : Q) : Q :=
  match frames with
  | [] => scale
  | d :: rest => sphereScaleRun rest (sphereScaleStep (amplitudeOf d) scale)
  end.

(** ** The first App (src/unnamed/part_001): openness drives [isHappy] *)
Module FirstApp.

Record SystemState := mkSystemState {
  isHappy : bool;
  mouthOpenness : Q;
  soundAmplitude : Q;
  soundFrequency : Q
}.

(** CONFIG.mouthThreshold *)
Definition mouthThreshold : Q := 3 # 10.

Section Face.
Variable hypot : Q -> Q -> Q.

(** [faceMesh.onResults], lines 48-67. *)
Definition onResults (multiFaceLandmarks : option (list (list Point))) (s : SystemState)
  : outcome SystemState :=
  match multiFaceLandmarks with
  | Some (landmarks :: _) =>
      match landmarkAt landmarks 61, landmarkAt landmarks 291,
            landmarkAt landmarks 13, landmarkAt landmarks 14 with
      | Ok l, Ok r, Ok t, Ok b =>
          let width := hypot (x r - x l) (y r - y l) in
          let height := hypot (x b - x t) (y b - y t) in
          let ratio := if Qlt_bool 0 width then height / width else 0 in
          let openness := clamp01 ratio in
          Ok (mkSystemState (Qlt_bool mouthThreshold openness) openness
                (soundAmplitude s) (soundFrequency s))
      | _, _, _, _ => Throws TypeError
      end
  | _ => Ok s
  end.

End Face.
End FirstApp.

(** The amplitude smoothing of the generative variant over several ticks. *)
Fixpoint generativeAmplitudeRun (frames : list (list Byte.byte)) (g : Generative.SystemState)
  : Generative.SystemState :=
  match frames with
  | [] => g
  | d :: rest => generativeAmplitudeRun rest (Generative.audioTick d g)
  end.

(** ** The face callback of the generative variant (src/types.ts, lines 126-169) *)

(** JavaScript numbers as this callback can produce them: the division
    by the mouth width is unguarded, so a zero width yields an infinity
    ([x / 0], [x <> 0]) or [NaN] ([0 / 0]). *)
Module JsNum.

Inductive num := Fin (q : Q) | PosInf | NegInf | NaN.

Definition add (a b : num) : num :=
  match a, b with
  | Fin p, Fin q => Fin (p + q)
  | NaN, _ | _, NaN => NaN
  | PosInf, NegInf | NegInf, PosInf => NaN
  | PosInf, _ | _, PosInf => PosInf
  | NegInf, _ | _, NegInf => NegInf
  end.

(** [n * c] for a finite constant [c]. *)
Definition mulc (n : num) (c : Q) : num :=
  match n with
  | Fin p => Fin (p * c)
  | NaN => NaN
  | PosInf => if Qlt_bool 0 c then PosInf else if Qlt_bool c 0 then NegInf else NaN
  | NegInf => if Qlt_bool 0 c then NegInf else if Qlt_bool c 0 then PosInf else NaN
  end.

(** [a / w] for finite [a] and a width [w >= 0] (a [Math.hypot] result,
    never [-0]). *)
Definition divw (a w : Q) : num :=
  if Qeq_bool w 0 then
    (if Qlt_bool 0 a then PosInf else if Qlt_bool a 0 then NegInf else NaN)
  else Fin (a / w).

(** [n > c] and [n < c] for a finite [c]; every comparison with [NaN] is false. *)
Definition gt (n : num) (c : Q) : bool :=
  match n with Fin p => Qlt_bool c p | PosInf => true | _ => false end.

Definition lt (n : num) (c : Q) : bool :=
  match n with Fin p => Qlt_bool p c | NegInf => true | _ => false end.

End JsNum.

Module GenerativeFace.

(** The two fields of [systemStateRef] this callback reads or writes. *)
Record FaceState := mkFaceState { mouthCurvature : JsNum.num; emotion : Emotion }.

Section Face.
Variable hypot : Q -> Q -> Q.

Definition onFaceResults (multiFaceLandmarks : option (list (list Point))) (s : FaceState)
  : outcome FaceState :=
  match multiFaceLandmarks with
  | Some (landmarks :: _) =>
      match landmarkAt landmarks 61, landmarkAt landmarks 291,
            landmarkAt landmarks 13, landmarkAt landmarks 14 with
      | Ok leftCorner, Ok rightCorner, Ok upperLip, Ok lowerLip =>
          let width := hypot (x rightCorner - x leftCorner) (y rightCorner - y leftCorner) in
          let cornersY := (y leftCorner + y rightCorner) / 2 in
          let centerY := (y upperLip + y lowerLip) / 2 in
          let rawCurvature := JsNum.divw (centerY - cornersY) width in
          let curvature :=
            JsNum.add (JsNum.mulc (mouthCurvature s) (9 # 10)) (JsNum.mulc rawCurvature (1 # 10)) in
          let e :=
            if JsNum.gt curvature (4 # 100) then HAPPY
            else if JsNum.lt curvature (- (3 # 100)) then SAD
            else CALM in
          Ok (mkFaceState curvature e)
      | _, _, _, _ => Throws TypeError
      end
  | _ => Ok s
  end.

(** A sequence of face frames; a [TypeError] escapes before any write. *)
Fixpoint faceRun (frames : list (option (list (list Point)))) (s : FaceState) : FaceState :=
  match frames with
  | [] => s
  | f :: rest =>
      match onFaceResults f s with
      | Ok s' => faceRun rest s'
      | Throws _ => faceRun rest s
      end
  end.

End Face.
End GenerativeFace.

(** ** Auxiliary notions used in the statements *)

(** Number of candidates at the head of [l] that differ from [e]; applied
    to the reversed history it counts the trailing frames that differ. *)
Fixpoint leadingDiff (e : Emotion) (l : list Emotion) : nat :=
  match l with
  | [] => 0%nat
  | c :: t => if Emotion_eqb c e then 0%nat else S (leadingDiff e t)
  end.

(** [b] lies between [a] and [t]: one step from [a] toward [t] without overshoot. *)
Definition approaches (a b t : Q) : Prop := (a <= b /\ b <= t) \/ (t <= b /\ b <= a).

(** [b] is one step from [a] toward [t] by the fraction [k] of the
    remaining distance: it lies between them and the gap left is [(1 - k)]
    times the old one. *)
Definition stepsToward (k a b t : Q) : Prop :=
  approaches a b t /\ t - b == (1 - k) * (t - a).

Definition stepsTowardColor (k : Q) (a b t : Canvas.Color) : Prop :=
  stepsToward k (Canvas.cr a) (Canvas.cr b) (Canvas.cr t) /\
  stepsToward k (Canvas.cg a) (Canvas.cg b) (Canvas.cg t) /\
  stepsToward k (Canvas.cb a) (Canvas.cb b) (Canvas.cb t).

(** The shared fields the Overlay displays, each within its range. *)
Definition sysBounded (s : AppTsx.SystemState) : Prop :=
  0 <= AppTsx.mouthOpenness s <= 1 /\ 0 <= AppTsx.soundAmplitude s <= 1 /\
  0 <= AppTsx.soundFrequency s <= 1.

Definition runtimeBounded (r : Runtime.Runtime) : Prop :=
  sysBounded (AppTsx.sys (Runtime.app r)) /\ sysBounded (Runtime.uiState r) /\
  sadMusicRate <= Runtime.playbackRate r <= happyMusicRate.

(** Every audio frame of the event sequence carries at least one bin. *)
Definition audioFramesNonEmpty (evs : list Runtime.Event) : Prop :=
  Forall (fun ev => forall d, ev = Runtime.AudioFrame d -> d <> []) evs.

(** The weather and halo scalars between the smallest and largest of
    their initial value and the three targets. *)
Definition weatherInRange (w : Canvas.Weather) : Prop :=
  6 <= Canvas.speed w <= 25 /\ 1 # 2 <= Canvas.sway w <= 2 /\
  5 # 2 <= Canvas.size w <= 5 /\ 0 <= Canvas.haloOpacity w <= 4 # 5.

(** A colour with every channel in [0,1]. *)
Definition unitColor (c : Canvas.Color) : Prop :=
  0 <= Canvas.cr c <= 1 /\ 0 <= Canvas.cg c <= 1 /\ 0 <= Canvas.cb c <= 1.

(** A face frame whose mouth, if read, has a positive width. *)
Definition positiveWidthFrame (hypot : Q -> Q -> Q) (f : option (list (list Point))) : Prop :=
  match f with
  | Some (lms :: _) =>
      forall l r, nth_error lms 61 = Some l -> nth_error lms 291 = Some r ->
                  0 < hypot (x r - x l) (y r - y l)
  | _ => True
  end.

(** [q] to the power [n]. *)
Fixpoint qpow (q : Q) (n : nat) : Q :=
  match n with
  | O => 1
  | S k => q * qpow q k
  end.

(** * Lemmas *)

Lemma Emotion_eqb_spec (a b : Emotion) : Emotion_eqb a b = true <-> a = b.
Proof. destruct a, b; simpl; split; congruence. Qed.

Lemma Qlt_bool_iff (a b : Q) : Qlt_bool a b = true <-> a < b.
Proof.
  unfold Qlt_bool. rewrite Bool.negb_true_iff. split; intro H.
  - apply Qnot_le_lt. intro H'. apply Qle_bool_iff in H'. congruence.
  - destruct (Qle_bool b a) eqn:E; [|reflexivity].
    apply Qle_bool_iff in E. exfalso. apply (Qlt_not_le _ _ H E).
Qed.

Example committed_after_six_sad : committedAfter (repeat SAD 6) = SAD.
Proof. reflexivity. Qed.

Example committed_after_five_sad : committedAfter (repeat SAD 5) = CALM.
Proof. reflexivity. Qed.

Lemma debounceRun_app (cs : list Emotion) (c : Emotion) (st : nat * Emotion) :
  debounceRun (cs ++ [c]) st = debounce c (debounceRun cs st).
Proof.
  revert st. induction cs as [|d cs IH]; intro st; simpl; [reflexivity|apply IH].
Qed.

Lemma leadingDiff_rev_app (e c : Emotion) (l : list Emotion) :
  leadingDiff e (rev (l ++ [c])) =
  if Emotion_eqb c e then 0%nat else S (leadingDiff e (rev l)).
Proof. rewrite rev_app_distr. reflexivity. Qed.

(** The debounce invariant: the timer is at most 5 and counts exactly the
    trailing frames whose candidate differs from the committed emotion. *)
Lemma debounce_timer_trailing (cs : list Emotion) :
  (fst (debounceRun cs debounceInit) <= 5)%nat /\
  fst (debounceRun cs debounceInit) = leadingDiff (snd (debounceRun cs debounceInit)) (rev cs).
Proof.
  induction cs as [|c cs IH] using rev_ind; [simpl; split; lia|].
  rewrite debounceRun_app, leadingDiff_rev_app.
  destruct (debounceRun cs debounceInit) as [timer stable].
  destruct IH as [Hle Heq]. simpl in Hle, Heq. simpl.
  destruct (Emotion_eqb c stable) eqn:Ec; simpl.
  - rewrite Ec. split; [lia|reflexivity].
  - destruct (Nat.ltb 5 (S timer)) eqn:Elt; simpl.
    + assert (Ecc : Emotion_eqb c c = true) by (apply Emotion_eqb_spec; reflexivity).
      rewrite Ecc. split; [lia|reflexivity].
    + rewrite Ec. apply Nat.ltb_ge in Elt. split; lia.
Qed.

Lemma leadingDiff_split (e : Emotion) (l : list Emotion) :
  exists pre suf, l = pre ++ suf /\ length suf = leadingDiff e (rev l) /\
                  Forall (fun d => d <> e) suf.
Proof.
  induction l as [|c l IH] using rev_ind.
  - exists [], []. simpl. auto.
  - rewrite leadingDiff_rev_app. destruct (Emotion_eqb c e) eqn:Ec.
    + exists (l ++ [c]), []. rewrite app_nil_r. auto.
    + destruct IH as [pre [suf [Hl [Hlen Hall]]]].
      exists pre, (suf ++ [c]). subst l. rewrite app_assoc. split; [reflexivity|].
      rewrite length_app, Hlen. simpl. split; [lia|].
      apply Forall_app. split; [exact Hall|].
      constructor; [|constructor]. intro Hce. subst c.
      assert (Emotion_eqb e e = true) by (apply Emotion_eqb_spec; reflexivity). congruence.
Qed.

(** A change of the committed emotion happens only on the sixth consecutive
    frame whose candidate differs from it, and adopts that frame's candidate. *)
Lemma debounce_change_needs_run (pre : list Emotion) (c : Emotion) :
  committedAfter (pre ++ [c]) <> committedAfter pre ->
  committedAfter (pre ++ [c]) = c /\
  exists pre' suf, pre = pre' ++ suf /\ length suf = 5%nat /\
                   Forall (fun d => d <> committedAfter pre) (suf ++ [c]).
Proof.
  unfold committedAfter. rewrite debounceRun_app.
  pose proof (debounce_timer_trailing pre) as Hinv.
  destruct (debounceRun pre debounceInit) as [timer stable] eqn:Erun.
  destruct Hinv as [Hle Htr]. simpl in Hle, Htr. simpl.
  destruct (Emotion_eqb c stable) eqn:Ec; simpl; [congruence|].
  destruct (Nat.ltb 5 (S timer)) eqn:Elt; simpl; [|congruence].
  intros _. split; [reflexivity|].
  apply Nat.ltb_lt in Elt.
  destruct (leadingDiff_split stable pre) as [pre' [suf [Hpre [Hlen Hall]]]].
  exists pre', suf. split; [exact Hpre|]. split; [lia|].
  apply Forall_app. split; [exact Hall|].
  constructor; [|constructor]. intro Hcs. subst c.
  assert (Emotion_eqb stable stable = true) by (apply Emotion_eqb_spec; reflexivity). congruence.
Qed.

Lemma debounce_short_runs_keep_calm (cs : list Emotion) :
  (length cs <= 5)%nat -> committedAfter cs = CALM.
Proof.
  induction cs as [|c cs IH] using rev_ind; [reflexivity|].
  rewrite length_app. simpl. intro Hlen.
  destruct (Emotion_eq_dec (committedAfter (cs ++ [c])) (committedAfter cs)) as [E|E].
  - rewrite E. apply IH. lia.
  - destruct (debounce_change_needs_run cs c E) as [_ [pre' [suf [Hcs [Hsuf _]]]]].
    subst cs. rewrite length_app in Hlen. lia.
Qed.

Lemma blend_approaches (c t k : Q) :
  0 <= k -> k <= 1 -> approaches c (blend c t k) t.
Proof.
  intros Hk0 Hk1. unfold approaches, blend.
  destruct (Qlt_le_dec c t) as [Hct|Htc]; [left|right]; split; nra.
Qed.

Lemma blend_approaches_5 (c t : Q) : approaches c (blend c t (5 # 100)) t.
Proof. apply blend_approaches; unfold Qle; simpl; lia. Qed.

Lemma blend_approaches_2 (c t : Q) : approaches c (blend c t (2 # 100)) t.
Proof. apply blend_approaches; unfold Qle; simpl; lia. Qed.

Lemma blend_steps (k c t : Q) :
  0 <= k -> k <= 1 -> stepsToward k c (blend c t k) t.
Proof.
  intros Hk0 Hk1. split; [apply blend_approaches; assumption|]. unfold blend. ring.
Qed.

Lemma lerpColor_steps (c t : Canvas.Color) :
  stepsTowardColor (5 # 100) c (Canvas.lerpColor c t (5 # 100)) t.
Proof.
  unfold stepsTowardColor, Canvas.lerpColor. cbn [Canvas.cr Canvas.cg Canvas.cb].
  split; [|split]; (apply blend_steps; [unfold Qle; simpl; lia|unfold Qle; simpl; lia]).
Qed.

Lemma clamp01_bounds (v : Q) : 0 <= clamp01 v /\ clamp01 v <= 1.
Proof.
  unfold clamp01. split.
  - apply Q.min_glb; [apply Q.le_max_r|unfold Qle; simpl; lia].
  - apply Q.le_min_r.
Qed.

Lemma faceUpdate_openness (hypot : Q -> Q -> Q) (lc rc tp bt : Point) (s : AppTsx.State) :
  AppTsx.mouthOpenness (AppTsx.sys (AppTsx.faceUpdate hypot lc rc tp bt s)) =
  clamp01 (AppTsx.smoothMouth (AppTsx.refs (AppTsx.faceUpdate hypot lc rc tp bt s))).
Proof.
  unfold AppTsx.faceUpdate.
  destruct (debounce _ _) as [timer' stable']. reflexivity.
Qed.

Lemma onResults_cases (hypot : Q -> Q -> Q) (f : option (list (list Point))) (s s' : AppTsx.State) :
  AppTsx.onResults hypot f s = Ok s' ->
  s' = s \/ exists lc rc tp bt, s' = AppTsx.faceUpdate hypot lc rc tp bt s.
Proof.
  unfold AppTsx.onResults.
  destruct f as [[|lms rest]|]; try (intro H; inversion H; left; reflexivity).
  destruct (landmarkAt lms 61), (landmarkAt lms 291), (landmarkAt lms 13), (landmarkAt lms 14);
    intro H; inversion H; right; eauto.
Qed.

Lemma byteVal_bounds (b : Byte.byte) : (0 <= byteVal b <= 255)%Z.
Proof. unfold byteVal. pose proof (Byte.to_nat_bounded b). lia. Qed.

Lemma sumBytes_nonneg (l : list Byte.byte) : (0 <= sumBytes l)%Z.
Proof.
  induction l as [|b t IH]; simpl; [lia|]. pose proof (byteVal_bounds b). lia.
Qed.

Lemma weightedFrom_bounds (l : list Byte.byte) (i : Z) :
  (0 <= i)%Z ->
  (0 <= weightedFrom i l <= (i + Z.of_nat (length l) - 1) * sumBytes l)%Z.
Proof.
  revert i. induction l as [|b t IH]; intros i Hi; simpl; [lia|].
  specialize (IH (i + 1)%Z ltac:(lia)).
  pose proof (byteVal_bounds b). pose proof (sumBytes_nonneg t). nia.
Qed.

Lemma inject_Z_nonneg (z : Z) : (0 <= z)%Z -> 0 <= inject_Z z.
Proof. intro H. unfold Qle. simpl. lia. Qed.

Lemma inject_Z_pos (z : Z) : (0 < z)%Z -> 0 < inject_Z z.
Proof. intro H. unfold Qlt. simpl. lia. Qed.

Lemma ratio_in_unit (a b n : Z) :
  (0 <= a)%Z -> (0 < b)%Z -> (0 < n)%Z -> (a <= b * n)%Z ->
  0 <= inject_Z a / inject_Z b / inject_Z n /\ inject_Z a / inject_Z b / inject_Z n <= 1.
Proof.
  intros Ha Hb Hn Hab.
  assert (Qb : 0 < inject_Z b) by (apply inject_Z_pos; exact Hb).
  assert (Qn : 0 < inject_Z n) by (apply inject_Z_pos; exact Hn).
  split.
  - apply Qle_shift_div_l; [exact Qn|]. rewrite Qmult_0_l.
    apply Qle_shift_div_l; [exact Qb|]. rewrite Qmult_0_l.
    apply inject_Z_nonneg. exact Ha.
  - apply Qle_shift_div_r; [exact Qn|]. rewrite Qmult_1_l.
    apply Qle_shift_div_r; [exact Qb|].
    rewrite <- inject_Z_mult, <- Zle_Qle. lia.
Qed.

Lemma normalizedFreq_in_unit (dataArray : list Byte.byte) :
  dataArray <> [] ->
  0 <= normalizedFreqOf dataArray /\ normalizedFreqOf dataArray <= 1.
Proof.
  intro Hne. unfold normalizedFreqOf, centroidOf.
  assert (HN : (0 < Z.of_nat (length dataArray))%Z)
    by (destruct dataArray; [congruence|simpl; lia]).
  destruct (Z.ltb 0 (sumBytes dataArray)) eqn:E.
  - apply Z.ltb_lt in E.
    pose proof (weightedFrom_bounds dataArray 0 ltac:(lia)) as [H0 H1].
    apply ratio_in_unit; [exact H0|exact E|exact HN|nia].
  - split.
    + apply Qle_shift_div_l; [apply inject_Z_pos; exact HN|]. rewrite Qmult_0_l. apply Qle_refl.
    + apply Qle_shift_div_r; [apply inject_Z_pos; exact HN|]. rewrite Qmult_1_l.
      apply inject_Z_nonneg. lia.
Qed.

Lemma landmarkAt_in_range (lms : list Point) (i : nat) :
  (i < length lms)%nat -> exists p, landmarkAt lms i = Ok p.
Proof.
  intro H. unfold landmarkAt. destruct (nth_error lms i) as [p|] eqn:E; [eauto|].
  apply nth_error_None in E. lia.
Qed.

Lemma tipDistSum_total (hypot : Q -> Q -> Q) (lms : list Point) (palm : Point)
  (idxs : list nat) (acc : Q) :
  Forall (fun i => (i < length lms)%nat) idxs ->
  exists v, Generative.tipDistSum hypot lms palm idxs acc = Ok v.
Proof.
  revert acc. induction idxs as [|i rest IH]; intros acc Hall; simpl; [eauto|].
  inversion Hall as [|? ? Hi Hrest]; subst.
  destruct (landmarkAt_in_range lms i Hi) as [p ->]. apply IH. exact Hrest.
Qed.

Lemma rate_step_in_range (e : Emotion) (r : Q) :
  sadMusicRate <= r -> r <= happyMusicRate ->
  sadMusicRate <= blend r (targetRate e) (5 # 100) /\
  blend r (targetRate e) (5 # 100) <= happyMusicRate.
Proof.
  intros H0 H1. unfold blend.
  destruct e; simpl; unfold sadMusicRate, happyMusicRate in *; split; lra.
Qed.

(** * Claims *)

(** ** C1: the debounce counter *)

(** C1 (as stated, refuted): the counter is not reset when the candidate
    changes from the previous frame's candidate: after the candidates
    HAPPY then SAD (both differing from the committed CALM) it is 2. *)
Lemma C1_counterexample :
  ~ (forall cs p c, p <> c -> fst (debounceRun (cs ++ [p; c]) debounceInit) = 0%nat).
Proof.
  intro H. specialize (H [] HAPPY SAD ltac:(discriminate)).
  vm_compute in H. discriminate.
Qed.

(** C1 (amended): on every face frame the counter is reset to 0 when the
    candidate equals the committed emotion and incremented otherwise; once
    the incremented counter exceeds 5 the candidate is committed and the
    counter reset. So the counter is at most 5 and counts the trailing
    frames whose candidate differs from the committed emotion. *)
Theorem C1_debounce_counts_frames_differing_from_committed :
  (forall c timer stable,
     debounce c (timer, stable) =
       if Emotion_eqb c stable then (0%nat, stable)
       else if Nat.ltb 5 (S timer) then (0%nat, c) else (S timer, stable)) /\
  (forall cs,
     (fst (debounceRun cs debounceInit) <= 5)%nat /\
     fst (debounceRun cs debounceInit) =
       leadingDiff (snd (debounceRun cs debounceInit)) (rev cs)).
Proof.
  split.
  - intros c timer stable. unfold debounce. destruct (Emotion_eqb c stable); reflexivity.
  - exact debounce_timer_trailing.
Qed.

(** ** C2: transitions need a run of frames *)

(** C2 (as stated, refuted): a transition to SAD does not need five SAD
    candidates: five HAPPY frames followed by one SAD frame commit SAD. *)
Lemma C2_counterexample :
  ~ (forall pre c, committedAfter (pre ++ [c]) <> committedAfter pre ->
                   exists pre', pre ++ [c] = pre' ++ repeat c 5).
Proof.
  intro H.
  assert (Hch : committedAfter (repeat HAPPY 5 ++ [SAD]) <> committedAfter (repeat HAPPY 5))
    by (vm_compute; discriminate).
  destruct (H (repeat HAPPY 5) SAD Hch) as [pre' Heq].
  apply (f_equal (fun l => nth 1 (rev l) CALM)) in Heq.
  cbv beta in Heq. rewrite (rev_app_distr pre') in Heq. simpl in Heq. discriminate.
Qed.

(** C2 (amended): from CALM with counter 0, six SAD candidates leave CALM
    committed through the fifth frame and commit SAD on the sixth; no
    history of at most five frames changes the committed emotion; and
    every change of the committed emotion happens on the sixth consecutive
    frame whose candidate differs from it (the candidates need not agree)
    and adopts that sixth frame's candidate. *)
Theorem C2_commit_on_sixth_differing_frame (pre : list Emotion) (c : Emotion)
  (Hchange : committedAfter (pre ++ [c]) <> committedAfter pre) :
  (forall k, (k <= 5)%nat -> committedAfter (repeat SAD k) = CALM) /\
  committedAfter (repeat SAD 6) = SAD /\
  (forall cs, (length cs <= 5)%nat -> committedAfter cs = CALM) /\
  committedAfter (pre ++ [c]) = c /\
  exists pre' suf, pre = pre' ++ suf /\ length suf = 5%nat /\
                   Forall (fun d => d <> committedAfter pre) (suf ++ [c]).
Proof.
  split; [|split; [reflexivity|split; [|apply debounce_change_needs_run; exact Hchange]]].
  - intros k Hk. apply debounce_short_runs_keep_calm. rewrite repeat_length. exact Hk.
  - exact debounce_short_runs_keep_calm.
Qed.

Lemma C2_commit_on_sixth_differing_frame_witness :
  committedAfter (repeat SAD 5 ++ [SAD]) <> committedAfter (repeat SAD 5) /\
  committedAfter (repeat SAD 5 ++ [SAD]) = SAD.
Proof.
  split; [vm_compute; discriminate|].
  apply (C2_commit_on_sixth_differing_frame (repeat SAD 5) SAD).
  vm_compute. discriminate.
Defined.

(** ** C3: blended targets *)

(** C3 (as stated, refuted): under the constant emotion CALM the wind
    strength does not move monotonically toward any value: with the
    amplitudes 0, 0.1, 0.09 (an EMA after one full and one silent audio
    frame) three frames render 0.5, 1.0 and 0.95. *)
Lemma C3_counterexample :
  let b0 := Canvas.mkBlend (Canvas.hexColor 0) (Canvas.hexColor 0) (Canvas.hexColor 0) (1 # 2) in
  let b1 := Canvas.animate CALM 0 b0 in
  let b2 := Canvas.animate CALM (1 # 10) b1 in
  let b3 := Canvas.animate CALM (9 # 100) b2 in
  ~ exists W, approaches (Canvas.windStrength b1) (Canvas.windStrength b2) W /\
              approaches (Canvas.windStrength b2) (Canvas.windStrength b3) W.
Proof.
  intros b0 b1 b2 b3 [W [H12 H23]].
  unfold b3, b2, b1, Canvas.animate in H12, H23. simpl in H12, H23.
  unfold approaches in H12, H23. lra.
Qed.

(** C3 (amended): while the emotion [e] holds, every lerped output moves
    toward [e]'s target without overshoot, by a fixed fraction of the
    remaining distance per tick: the grass base, grass tip and sun colours
    (5 percent per frame), in part_002 the weather speed, sway and size
    (5 percent), the halo opacity (2 percent), the weather-particle colour and the
    halo colour (5 percent), and on every audio tick the music playback rate
    (5 percent). The wind strength is not blended: it is set each frame to
    0.5 + 5 * soundAmplitude. *)
Theorem C3_lerped_targets_approach_wind_follows_audio
  (e : Emotion) (amp : Q) (b : Canvas.Blend) (w : Canvas.Weather) (k : Sky)
  (dataArray : list Byte.byte) (s : AppTsx.SystemState) (rate : Q) :
  stepsTowardColor (5 # 100) (Canvas.baseColor b) (Canvas.baseColor (Canvas.animate e amp b))
                   (fst (fst (Canvas.colorTargets e))) /\
  stepsTowardColor (5 # 100) (Canvas.tipColor b) (Canvas.tipColor (Canvas.animate e amp b))
                   (snd (fst (Canvas.colorTargets e))) /\
  stepsTowardColor (5 # 100) (Canvas.sunColor b) (Canvas.sunColor (Canvas.animate e amp b))
                   (snd (Canvas.colorTargets e)) /\
  Canvas.windStrength (Canvas.animate e amp b) = (1 # 2) + amp * 5 /\
  stepsToward (5 # 100) (Canvas.speed w) (Canvas.speed (Canvas.animateWeather e w))
              (Canvas.speed (Canvas.weatherTargets e)) /\
  stepsToward (5 # 100) (Canvas.sway w) (Canvas.sway (Canvas.animateWeather e w))
              (Canvas.sway (Canvas.weatherTargets e)) /\
  stepsToward (5 # 100) (Canvas.size w) (Canvas.size (Canvas.animateWeather e w))
              (Canvas.size (Canvas.weatherTargets e)) /\
  stepsToward (2 # 100) (Canvas.haloOpacity w) (Canvas.haloOpacity (Canvas.animateWeather e w))
              (Canvas.haloOpacity (Canvas.weatherTargets e)) /\
  stepsTowardColor (5 # 100) (weatherColor k) (weatherColor (animateSky e k))
                   (fst (skyTargets e)) /\
  stepsTowardColor (5 # 100) (haloColor k) (haloColor (animateSky e k))
                   (snd (skyTargets e)) /\
  exists rate', snd (AppTsx.audioTick dataArray s (Some rate)) = Some rate' /\
                stepsToward (5 # 100) rate rate' (targetRate (AppTsx.emotion s)).
Proof.
  assert (K5 : 0 <= 5 # 100 /\ 5 # 100 <= 1) by (split; unfold Qle; simpl; lia).
  assert (K2 : 0 <= 2 # 100 /\ 2 # 100 <= 1) by (split; unfold Qle; simpl; lia).
  destruct K5 as [K50 K51], K2 as [K20 K21].
  unfold Canvas.animate, animateSky.
  destruct (Canvas.colorTargets e) as [[tb tt] ts].
  destruct (skyTargets e) as [wt ht]. simpl.
  split; [apply lerpColor_steps|].
  split; [apply lerpColor_steps|].
  split; [apply lerpColor_steps|].
  split; [reflexivity|].
  split; [apply blend_steps; assumption|].
  split; [apply blend_steps; assumption|].
  split; [apply blend_steps; assumption|].
  split; [apply blend_steps; assumption|].
  split; [apply lerpColor_steps|].
  split; [apply lerpColor_steps|].
  eexists. split; [reflexivity|]. apply blend_steps; assumption.
Qed.

(** ** C4: curvature of a zero-width mouth *)

(** C4 (as stated, refuted): with both corners at (0.5, 0.5) (width 0)
    and both lip centres at (0.5, 0.4), the raw curvature is 0.1, not 0. *)
Lemma C4_counterexample :
  ~ (forall leftCorner rightCorner top bottom,
       AppTsx.rawCurvatureOf leftCorner rightCorner top bottom 0 == 0).
Proof.
  intro H.
  specialize (H (mkPoint (1 # 2) (1 # 2)) (mkPoint (1 # 2) (1 # 2))
                (mkPoint (1 # 2) (2 # 5)) (mkPoint (1 # 2) (2 # 5))).
  unfold Qeq in H. vm_compute in H. discriminate.
Qed.

(** C4 (amended): the divisor [mouthW * 0.5 || 1] is never 0, and when the
    mouth width is 0 it is replaced by 1, so the raw curvature is the
    unnormalised difference cornersY - centerY. *)
Theorem C4_zero_width_curvature_is_unnormalised
  (leftCorner rightCorner top bottom : Point) (mouthW : Q) (Hw : mouthW == 0) :
  AppTsx.rawCurvatureOf leftCorner rightCorner top bottom mouthW ==
    (y leftCorner + y rightCorner) / 2 - (y top + y bottom) / 2 /\
  (forall v, ~ orOne v == 0).
Proof.
  split.
  - unfold AppTsx.rawCurvatureOf, orOne.
    assert (E : Qeq_bool (mouthW * (1 # 2)) 0 = true)
      by (apply Qeq_bool_iff; rewrite Hw; reflexivity).
    rewrite E. field.
  - intros v. unfold orOne. destruct (Qeq_bool v 0) eqn:E.
    + discriminate.
    + apply Qeq_bool_neq. exact E.
Qed.

Lemma C4_zero_width_curvature_is_unnormalised_witness :
  0 == 0 /\
  AppTsx.rawCurvatureOf (mkPoint (1 # 2) (1 # 2)) (mkPoint (1 # 2) (1 # 2))
                        (mkPoint (1 # 2) (2 # 5)) (mkPoint (1 # 2) (2 # 5)) 0 == 1 # 10.
Proof.
  split; [reflexivity|].
  destruct (C4_zero_width_curvature_is_unnormalised
              (mkPoint (1 # 2) (1 # 2)) (mkPoint (1 # 2) (1 # 2))
              (mkPoint (1 # 2) (2 # 5)) (mkPoint (1 # 2) (2 # 5)) 0 (Qeq_refl 0)) as [H _].
  rewrite H. reflexivity.
Defined.

(** ** C5: mouth openness stays in [0,1] *)

(** C5: whatever face frames arrive (absent, empty, degenerate or with
    missing landmarks), the mouthOpenness of the shared state stays in
    [0,1]: the ratio is guarded to 0 when the width is not positive and
    the smoothed value is clamped before every write. *)
Theorem C5_mouthOpenness_in_unit_interval
  (hypot : Q -> Q -> Q) (frames : list (option (list (list Point)))) :
  0 <= AppTsx.mouthOpenness (AppTsx.sys (AppTsx.faceRun hypot frames AppTsx.initialState)) /\
  AppTsx.mouthOpenness (AppTsx.sys (AppTsx.faceRun hypot frames AppTsx.initialState)) <= 1 /\
  (forall mouthH, AppTsx.rawRatioOf 0 mouthH = 0) /\
  (forall lc rc tp bt s,
     AppTsx.mouthOpenness (AppTsx.sys (AppTsx.faceUpdate hypot lc rc tp bt s)) =
     clamp01 (AppTsx.smoothMouth (AppTsx.refs (AppTsx.faceUpdate hypot lc rc tp bt s)))).
Proof.
  assert (Hrun : forall s,
            0 <= AppTsx.mouthOpenness (AppTsx.sys s) <= 1 ->
            0 <= AppTsx.mouthOpenness (AppTsx.sys (AppTsx.faceRun hypot frames s)) <= 1).
  { induction frames as [|f rest IH]; intros s Hs; simpl; [exact Hs|].
    destruct (AppTsx.onResults hypot f s) as [s'|e] eqn:E; apply IH; [|exact Hs].
    destruct (onResults_cases hypot f s s' E) as [->|[lc [rc [tp [bt ->]]]]]; [exact Hs|].
    rewrite faceUpdate_openness. apply clamp01_bounds. }
  destruct (Hrun AppTsx.initialState) as [H0 H1]; [simpl; split; unfold Qle; simpl; lia|].
  split; [exact H0|]. split; [exact H1|]. split.
  - intro mouthH. reflexivity.
  - intros. apply faceUpdate_openness.
Qed.

(** ** C7: frames without detections *)

(** C7: a face or hand callback whose landmark list is absent or empty
    returns the state unchanged (shared state and smoother state) and
    raises nothing. *)
Theorem C7_no_detection_keeps_state
  (hypot : Q -> Q -> Q) (s : AppTsx.State) (g : Generative.SystemState) :
  AppTsx.onResults hypot None s = Ok s /\
  AppTsx.onResults hypot (Some []) s = Ok s /\
  Generative.onHandResults hypot None g = Ok g /\
  Generative.onHandResults hypot (Some []) g = Ok g.
Proof. repeat split. Qed.

(** ** C6: the spectral centroid *)

(** C6: on every audio tick of src/App.tsx (256 bins, as [fftSize = 512]
    makes them) the centroid is [numerator / denominator] guarded to 0 on
    a zero denominator, the written soundFrequency is centroid / N and lies
    in [0,1]; an all-zero frame gives amplitude 0, centroid 0 and
    soundFrequency 0. *)
Theorem C6_centroid_guarded_and_normalized
  (dataArray : list Byte.byte) (s : AppTsx.SystemState) (rate : option Q)
  (Hlen : length dataArray = frequencyBinCount) :
  centroidOf dataArray =
    (if Z.ltb 0 (sumBytes dataArray)
     then inject_Z (weightedFrom 0 dataArray) / inject_Z (sumBytes dataArray) else 0) /\
  AppTsx.soundFrequency (fst (AppTsx.audioTick dataArray s rate)) =
    centroidOf dataArray / inject_Z (Z.of_nat (length dataArray)) /\
  0 <= AppTsx.soundFrequency (fst (AppTsx.audioTick dataArray s rate)) /\
  AppTsx.soundFrequency (fst (AppTsx.audioTick dataArray s rate)) <= 1 /\
  AppTsx.soundAmplitude (fst (AppTsx.audioTick (repeat Byte.x00 frequencyBinCount) s rate)) == 0 /\
  centroidOf (repeat Byte.x00 frequencyBinCount) = 0 /\
  AppTsx.soundFrequency (fst (AppTsx.audioTick (repeat Byte.x00 frequencyBinCount) s rate)) == 0.
Proof.
  assert (Hne : dataArray <> []) by (intro E; subst dataArray; discriminate Hlen).
  destruct (normalizedFreq_in_unit dataArray Hne) as [H0 H1].
  split; [reflexivity|]. split; [reflexivity|].
  split; [exact H0|]. split; [exact H1|].
  split; [vm_compute; reflexivity|]. split; vm_compute; reflexivity.
Qed.

Lemma C6_centroid_guarded_and_normalized_witness :
  length (repeat Byte.xff frequencyBinCount) = frequencyBinCount /\
  AppTsx.soundFrequency
    (fst (AppTsx.audioTick (repeat Byte.xff frequencyBinCount) AppTsx.initialSystemState None)) <= 1.
Proof.
  split; [apply repeat_length|].
  apply (C6_centroid_guarded_and_normalized (repeat Byte.xff frequencyBinCount)
           AppTsx.initialSystemState None (repeat_length _ _)).
Defined.

(** ** C8: amplitude *)

(** C8 (as stated, refuted): the audio tick of src/App.tsx writes the
    amplitude unsmoothed: from soundAmplitude 0, a full-scale frame writes
    1, which no EMA with 0 < alpha < 1 produces. *)
Lemma C8_counterexample :
  ~ exists alpha, 0 < alpha /\ alpha < 1 /\
      forall dataArray s rate,
        AppTsx.soundAmplitude (fst (AppTsx.audioTick dataArray s rate)) ==
        AppTsx.soundAmplitude s * (1 - alpha) + amplitudeOf dataArray * alpha.
Proof.
  intros [alpha [H0 [H1 H]]].
  specialize (H (repeat Byte.xff frequencyBinCount) AppTsx.initialSystemState None).
  assert (A : amplitudeOf (repeat Byte.xff frequencyBinCount) == 1)
    by (vm_compute; reflexivity).
  cbn [fst AppTsx.audioTick AppTsx.soundAmplitude AppTsx.initialSystemState] in H.
  rewrite A in H. lra.
Qed.

(** C8 (amended): on every audio tick amplitude = sum / (N * 255), i.e.
    mean(samples) / 255; src/App.tsx writes it to soundAmplitude as is,
    while the generative variant (src/types.ts) writes the EMA
    soundAmplitude * 0.9 + amplitude * 0.1. *)
Theorem C8_amplitude_mean_raw_in_app_ema_in_variant
  (dataArray : list Byte.byte) (s : AppTsx.SystemState) (rate : option Q)
  (g : Generative.SystemState) :
  amplitudeOf dataArray ==
    inject_Z (sumBytes dataArray) / inject_Z (Z.of_nat (length dataArray)) / 255 /\
  AppTsx.soundAmplitude (fst (AppTsx.audioTick dataArray s rate)) = amplitudeOf dataArray /\
  Generative.soundAmplitude (Generative.audioTick dataArray g) =
    Generative.soundAmplitude g * (9 # 10) + amplitudeOf dataArray * (1 # 10).
Proof.
  split; [|split; reflexivity].
  unfold amplitudeOf, Qdiv. rewrite inject_Z_mult, Qinv_mult_distr.
  rewrite Qmult_assoc. reflexivity.
Qed.

(** ** C9: hand position *)

(** C9: a detected hand (at least the 21 landmarks of the tracker) with
    palm centre in [0,1]^2 sets handPosition to
    ((1 - palmX) * 2 - 1, -palmY * 2 + 1), both components in [-1,1]. *)
Theorem C9_hand_position_in_square
  (hypot : Q -> Q -> Q) (landmarks : list Point) (rest : list (list Point))
  (g : Generative.SystemState) (palm : Point)
  (Hlen : (21 <= length landmarks)%nat) (Hpalm : nth_error landmarks 9 = Some palm)
  (Hx : 0 <= x palm /\ x palm <= 1) (Hy : 0 <= y palm /\ y palm <= 1) :
  exists g', Generative.onHandResults hypot (Some (landmarks :: rest)) g = Ok g' /\
    Generative.handPosition g' =
      Generative.mkHandPosition ((1 - x palm) * 2 - 1) (- (y palm) * 2 + 1) /\
    -1 <= Generative.hx (Generative.handPosition g') /\
    Generative.hx (Generative.handPosition g') <= 1 /\
    -1 <= Generative.hy (Generative.handPosition g') /\
    Generative.hy (Generative.handPosition g') <= 1.
Proof.
  unfold Generative.onHandResults, landmarkAt. rewrite Hpalm.
  destruct (tipDistSum_total hypot landmarks palm [8; 12; 16; 20]%nat 0)
    as [v ->]; [repeat constructor; lia|].
  eexists. split; [reflexivity|]. simpl.
  split; [reflexivity|]. destruct Hx, Hy. repeat split; lra.
Qed.

Lemma C9_hand_position_in_square_witness :
  (21 <= length (repeat (mkPoint (1 # 4) (3 # 4)) 21))%nat /\
  exists g', Generative.onHandResults (fun a b => a * a + b * b)
               (Some [repeat (mkPoint (1 # 4) (3 # 4)) 21]) Generative.initialSystemState = Ok g' /\
    Generative.handPosition g' = Generative.mkHandPosition ((1 - (1 # 4)) * 2 - 1) (- (3 # 4) * 2 + 1) /\
    -1 <= Generative.hx (Generative.handPosition g') /\
    Generative.hx (Generative.handPosition g') <= 1 /\
    -1 <= Generative.hy (Generative.handPosition g') /\
    Generative.hy (Generative.handPosition g') <= 1.
Proof.
  split; [rewrite repeat_length; lia|].
  apply (C9_hand_position_in_square (fun a b => a * a + b * b)
           (repeat (mkPoint (1 # 4) (3 # 4)) 21) [] Generative.initialSystemState
           (mkPoint (1 # 4) (3 # 4))).
  - rewrite repeat_length. lia.
  - reflexivity.
  - simpl. split; unfold Qle; simpl; lia.
  - simpl. split; unfold Qle; simpl; lia.
Defined.

(** ** C10: the music playback rate stays between the configured rates *)

(** C10: from the initial rate 1.0, after any sequence of audio ticks,
    whatever emotion each tick reads, the playback rate lies in
    [sadMusicRate, happyMusicRate] = [0.85, 1.15]. *)
Theorem C10_playbackRate_within_music_rates
  (ticks : list (list Byte.byte * AppTsx.SystemState)) :
  sadMusicRate <= AppTsx.playbackRateAfter AppTsx.initialPlaybackRate ticks /\
  AppTsx.playbackRateAfter AppTsx.initialPlaybackRate ticks <= happyMusicRate.
Proof.
  assert (Hgen : forall r, sadMusicRate <= r -> r <= happyMusicRate ->
            sadMusicRate <= AppTsx.playbackRateAfter r ticks /\
            AppTsx.playbackRateAfter r ticks <= happyMusicRate).
  { induction ticks as [|[d st] rest IH]; intros r H0 H1; simpl; [split; assumption|].
    destruct (rate_step_in_range (AppTsx.emotion st) r H0 H1) as [H2 H3].
    apply IH; assumption. }
  apply Hgen; unfold sadMusicRate, happyMusicRate, AppTsx.initialPlaybackRate, Qle; simpl; lia.
Qed.

(** * Further properties of the code *)

(** ** The debounce over long runs *)

Lemma debounceRun_same_keeps (c : Emotion) (n t : nat) :
  snd (debounceRun (repeat c n) (t, c)) = c.
Proof.
  revert t. induction n as [|n IH]; intro t; [reflexivity|].
  cbn [repeat debounceRun]. unfold debounce.
  assert (Ecc : Emotion_eqb c c = true) by (apply Emotion_eqb_spec; reflexivity).
  rewrite Ecc. simpl. apply IH.
Qed.

Lemma debounceRun_differ_commits (c e : Emotion) (n t : nat) :
  c <> e -> (6 <= n + t)%nat -> (1 <= n)%nat ->
  snd (debounceRun (repeat c n) (t, e)) = c.
Proof.
  revert t. induction n as [|n IH]; intros t Hce H6 H1; [lia|].
  cbn [repeat debounceRun]. unfold debounce.
  destruct (Emotion_eqb c e) eqn:Ec; [apply Emotion_eqb_spec in Ec; contradiction|].
  simpl. destruct (Nat.ltb 5 (S t)) eqn:Elt.
  - apply debounceRun_same_keeps.
  - apply Nat.ltb_ge in Elt. apply IH; [exact Hce|lia|lia].
Qed.

(** A candidate held for six consecutive frames is committed, from any
    debounce state (any counter, any committed emotion). *)
Theorem debounce_held_candidate_commits (c : Emotion) (st : nat * Emotion) :
  snd (debounceRun (repeat c 6) st) = c.
Proof.
  destruct st as [t e]. destruct (Emotion_eq_dec c e) as [->|Hce].
  - apply debounceRun_same_keeps.
  - apply debounceRun_differ_commits; [exact Hce|lia|lia].
Qed.

(** The committed emotion is CALM or the candidate of some past frame. *)
Theorem debounce_committed_was_a_candidate (cs : list Emotion) :
  committedAfter cs = CALM \/ In (committedAfter cs) cs.
Proof.
  induction cs as [|c cs IH] using rev_ind; [left; reflexivity|].
  destruct (Emotion_eq_dec (committedAfter (cs ++ [c])) (committedAfter cs)) as [E|E].
  - rewrite E. destruct IH as [IH|IH]; [left; exact IH|right; apply in_or_app; left; exact IH].
  - destruct (debounce_change_needs_run cs c E) as [Hc _].
    right. rewrite Hc. apply in_or_app. right. left. reflexivity.
Qed.

(** If every window of six consecutive frames contains a CALM candidate,
    the committed emotion stays CALM: shorter excursions never commit. *)
Theorem debounce_calm_recurring_stays_calm (cs : list Emotion)
  (Hwin : forall pre w post, cs = pre ++ w ++ post -> length w = 6%nat -> In CALM w) :
  committedAfter cs = CALM.
Proof.
  induction cs as [|c cs IH] using rev_ind; [reflexivity|].
  assert (IHc : committedAfter cs = CALM).
  { apply IH. intros pre w post Hcs Hw. apply (Hwin pre w (post ++ [c])); [|exact Hw].
    rewrite Hcs. rewrite <- !app_assoc. reflexivity. }
  destruct (Emotion_eq_dec (committedAfter (cs ++ [c])) (committedAfter cs)) as [E|E].
  - rewrite E. exact IHc.
  - exfalso. destruct (debounce_change_needs_run cs c E) as [_ [pre' [suf [Hcs [Hlen Hall]]]]].
    rewrite IHc in Hall.
    assert (Hin : In CALM (suf ++ [c])).
    { apply (Hwin pre' (suf ++ [c]) []).
      - rewrite Hcs, app_nil_r, app_assoc. reflexivity.
      - rewrite length_app, Hlen. reflexivity. }
    rewrite Forall_forall in Hall. exact (Hall CALM Hin eq_refl).
Qed.

Lemma debounce_calm_recurring_stays_calm_witness :
  committedAfter [HAPPY; HAPPY; HAPPY; HAPPY; HAPPY; CALM; SAD; SAD; SAD; SAD; SAD] = CALM.
Proof.
  apply debounce_calm_recurring_stays_calm.
  intros pre w post Heq Hw.
  assert (Hl : length [HAPPY; HAPPY; HAPPY; HAPPY; HAPPY; CALM; SAD; SAD; SAD; SAD; SAD] =
               (length pre + length w + length post)%nat)
    by (rewrite Heq, !length_app; lia).
  simpl in Hl.
  assert (H5 : nth_error (pre ++ w ++ post) 5 = Some CALM) by (rewrite <- Heq; reflexivity).
  rewrite nth_error_app2 in H5 by lia.
  rewrite nth_error_app1 in H5 by lia.
  exact (nth_error_In _ _ H5).
Defined.

(** ** Landmark sets the callbacks accept *)

Lemma landmarkAt_out_of_range (lms : list Point) (i : nat) :
  (length lms <= i)%nat -> landmarkAt lms i = Throws TypeError.
Proof.
  intro H. unfold landmarkAt. apply nth_error_None in H. rewrite H. reflexivity.
Qed.

(** The face callback of src/App.tsx throws a [TypeError] exactly when the
    detected face has fewer than 292 landmarks (it reads index 291). *)
Theorem face_callback_throws_iff_short (hypot : Q -> Q -> Q) (lms : list Point)
  (rest : list (list Point)) (s : AppTsx.State) :
  AppTsx.onResults hypot (Some (lms :: rest)) s = Throws TypeError <-> (length lms < 292)%nat.
Proof.
  unfold AppTsx.onResults. split.
  - intro H. destruct (Nat.lt_ge_cases (length lms) 292) as [Hl|Hl]; [exact Hl|].
    destruct (landmarkAt_in_range lms 61 ltac:(lia)) as [a Ea].
    destruct (landmarkAt_in_range lms 291 ltac:(lia)) as [b Eb].
    destruct (landmarkAt_in_range lms 13 ltac:(lia)) as [c Ec].
    destruct (landmarkAt_in_range lms 14 ltac:(lia)) as [d Ed].
    rewrite Ea, Eb, Ec, Ed in H. discriminate H.
  - intro Hl. rewrite (landmarkAt_out_of_range lms 291 ltac:(lia)).
    destruct (landmarkAt lms 61); reflexivity.
Qed.

Lemma tipDistSum_throws (hypot : Q -> Q -> Q) (lms : list Point) (palm : Point)
  (idxs : list nat) (acc : Q) (i : nat) :
  In i idxs -> (length lms <= i)%nat ->
  Generative.tipDistSum hypot lms palm idxs acc = Throws TypeError.
Proof.
  revert acc. induction idxs as [|j rest IH]; intros acc Hin Hl; [destruct Hin|].
  simpl. destruct Hin as [->|Hin].
  - rewrite (landmarkAt_out_of_range lms i Hl). reflexivity.
  - destruct (landmarkAt lms j) as [tip|e] eqn:E; [apply IH; assumption|].
    destruct e. reflexivity.
Qed.

(** The hand callback of src/types.ts throws a [TypeError] exactly when the
    detected hand has fewer than 21 landmarks (it reads index 20). *)
Theorem hand_callback_throws_iff_short (hypot : Q -> Q -> Q) (lms : list Point)
  (rest : list (list Point)) (g : Generative.SystemState) :
  Generative.onHandResults hypot (Some (lms :: rest)) g = Throws TypeError <->
  (length lms < 21)%nat.
Proof.
  unfold Generative.onHandResults. split.
  - intro H. destruct (Nat.lt_ge_cases (length lms) 21) as [Hl|Hl]; [exact Hl|].
    destruct (landmarkAt_in_range lms 9 ltac:(lia)) as [palm Ep]. rewrite Ep in H.
    destruct (tipDistSum_total hypot lms palm [8; 12; 16; 20]%nat 0) as [v Ev];
      [repeat constructor; lia|].
    rewrite Ev in H. discriminate H.
  - intro Hl. destruct (Nat.lt_ge_cases (length lms) 10) as [H9|H9].
    + rewrite (landmarkAt_out_of_range lms 9 ltac:(lia)). reflexivity.
    + destruct (landmarkAt_in_range lms 9 ltac:(lia)) as [palm ->].
      rewrite (tipDistSum_throws hypot lms palm [8; 12; 16; 20]%nat 0 20);
        [reflexivity|simpl; tauto|lia].
Qed.

(** ** Fist detection *)

Lemma tipDistSum_acc_le (hypot : Q -> Q -> Q) (Hnn : forall a b, 0 <= hypot a b)
  (lms : list Point) (palm : Point) (idxs : list nat) (acc v : Q) :
  Generative.tipDistSum hypot lms palm idxs acc = Ok v -> acc <= v.
Proof.
  revert acc. induction idxs as [|j rest IH]; intros acc H; simpl in H.
  - inversion H; subst. apply Qle_refl.
  - destruct (landmarkAt lms j) as [tip|e]; [|discriminate H].
    apply IH in H. pose proof (Hnn (x tip - x palm) (y tip - y palm)). lra.
Qed.

Lemma tipDistSum_each_le (hypot : Q -> Q -> Q) (Hnn : forall a b, 0 <= hypot a b)
  (lms : list Point) (palm : Point) (idxs : list nat) (acc v : Q) (i : nat) :
  Generative.tipDistSum hypot lms palm idxs acc = Ok v -> In i idxs ->
  exists tip, nth_error lms i = Some tip /\
              acc + hypot (x tip - x palm) (y tip - y palm) <= v.
Proof.
  revert acc. induction idxs as [|j rest IH]; intros acc H Hin; [destruct Hin|].
  simpl in H. unfold landmarkAt in H.
  destruct (nth_error lms j) as [tip|] eqn:E; [|discriminate H].
  destruct Hin as [->|Hin].
  - exists tip. split; [exact E|]. exact (tipDistSum_acc_le hypot Hnn _ _ _ _ _ H).
  - destruct (IH _ H Hin) as [tip' [E' Hle]]. exists tip'. split; [exact E'|].
    pose proof (Hnn (x tip - x palm) (y tip - y palm)). lra.
Qed.

(** With a non-negative distance, [isFist] is set only when every one of
    the four fingertips (8, 12, 16, 20) lies closer than 0.35 to the palm
    centre (landmark 9). *)
Theorem fist_means_every_tip_close (hypot : Q -> Q -> Q)
  (Hnn : forall a b, 0 <= hypot a b) (lms : list Point) (rest : list (list Point))
  (g g' : Generative.SystemState)
  (Hok : Generative.onHandResults hypot (Some (lms :: rest)) g = Ok g')
  (Hfist : Generative.isFist g' = true) :
  exists palm, nth_error lms 9 = Some palm /\
  forall i, In i [8; 12; 16; 20]%nat ->
    exists tip, nth_error lms i = Some tip /\
                hypot (x tip - x palm) (y tip - y palm) < 35 # 100.
Proof.
  unfold Generative.onHandResults in Hok. unfold landmarkAt in Hok.
  destruct (nth_error lms 9) as [palm|] eqn:Ep; [|discriminate Hok].
  exists palm. split; [reflexivity|]. intros i Hi.
  destruct (Generative.tipDistSum hypot lms palm [8; 12; 16; 20]%nat 0) as [v|e] eqn:Ev;
    [|discriminate Hok].
  inversion Hok as [Hg]. rewrite <- Hg in Hfist. simpl in Hfist.
  apply Qlt_bool_iff in Hfist.
  destruct (tipDistSum_each_le hypot Hnn lms palm _ 0 v i Ev Hi) as [tip [Et Hle]].
  exists tip. split; [exact Et|]. lra.
Qed.

Lemma sumsq_nonneg (a b : Q) : 0 <= a * a + b * b.
Proof.
  nra.
Qed.

Lemma fist_means_every_tip_close_witness :
  let hand := repeat (mkPoint (1 # 2) (1 # 2)) 21 in
  (exists g', Generative.onHandResults (fun a b => a * a + b * b) (Some [hand])
                Generative.initialSystemState = Ok g' /\ Generative.isFist g' = true) /\
  exists palm, nth_error hand 9 = Some palm /\
  forall i, In i [8; 12; 16; 20]%nat ->
    exists tip, nth_error hand i = Some tip /\
                (fun a b => a * a + b * b) (x tip - x palm) (y tip - y palm) < 35 # 100.
Proof.
  intro hand.
  destruct (Generative.onHandResults (fun a b => a * a + b * b) (Some [hand])
              Generative.initialSystemState) as [g'|e] eqn:Hok;
    [|vm_compute in Hok; discriminate Hok].
  assert (Hf : Generative.isFist g' = true).
  { vm_compute in Hok. inversion Hok. reflexivity. }
  split; [exists g'; split; [reflexivity|exact Hf]|].
  apply (fist_means_every_tip_close (fun a b => a * a + b * b)
           sumsq_nonneg
           hand [] Generative.initialSystemState g' Hok Hf).
Defined.

(** ** Amplitude and centroid of an audio frame *)

Lemma sumBytes_le (l : list Byte.byte) : (sumBytes l <= 255 * Z.of_nat (length l))%Z.
Proof.
  induction l as [|b t IH]; cbn [sumBytes length]; [lia|].
  pose proof (byteVal_bounds b). lia.
Qed.

Lemma byteVal_full (b : Byte.byte) : byteVal b = 255%Z <-> b = Byte.xff.
Proof.
  split; [|intros ->; reflexivity].
  unfold byteVal. intro H. assert (Hn : Byte.to_nat b = 255%nat) by lia.
  pose proof (Byte.of_to_nat b) as E. rewrite Hn in E. vm_compute in E.
  inversion E. reflexivity.
Qed.

Lemma sumBytes_full (l : list Byte.byte) :
  sumBytes l = (255 * Z.of_nat (length l))%Z <-> Forall (fun b => b = Byte.xff) l.
Proof.
  induction l as [|b t IH]; cbn [sumBytes length]; [split; [constructor|reflexivity]|].
  rewrite Nat2Z.inj_succ.
  - pose proof (byteVal_bounds b) as Bb. pose proof (sumBytes_le t) as Bt. split.
    + intro Hs. constructor.
      * apply byteVal_full. lia.
      * apply IH. lia.
    + intro Hf. inversion Hf as [|? ? Hb Ht]; subst.
      apply IH in Ht. change (byteVal Byte.xff) with 255%Z. lia.
Qed.

Lemma amplitudeOf_bounds (dataArray : list Byte.byte) :
  dataArray <> [] -> 0 <= amplitudeOf dataArray /\ amplitudeOf dataArray <= 1.
Proof.
  intro Hne. unfold amplitudeOf.
  assert (Hpos : (0 < Z.of_nat (length dataArray) * 255)%Z).
  { destruct dataArray; [contradiction|]. simpl length. lia. }
  pose proof (sumBytes_nonneg dataArray). pose proof (sumBytes_le dataArray).
  pose proof (inject_Z_pos _ Hpos) as Hp. split.
  - apply Qle_shift_div_l; [exact Hp|]. rewrite Qmult_0_l. apply inject_Z_nonneg. lia.
  - apply Qle_shift_div_r; [exact Hp|]. rewrite Qmult_1_l. rewrite <- Zle_Qle. lia.
Qed.

(** The amplitude [sum / (bufferLength * 255)] of a non-empty frame lies
    in [0,1]. *)
Theorem amplitude_in_unit (dataArray : list Byte.byte) (Hne : dataArray <> []) :
  0 <= amplitudeOf dataArray /\ amplitudeOf dataArray <= 1.
Proof. exact (amplitudeOf_bounds dataArray Hne). Qed.

Lemma amplitude_in_unit_witness :
  [Byte.x10; Byte.xff] <> [] /\
  0 <= amplitudeOf [Byte.x10; Byte.xff] /\ amplitudeOf [Byte.x10; Byte.xff] <= 1.
Proof.
  split; [discriminate|]. apply amplitude_in_unit. discriminate.
Defined.

(** A non-empty frame reaches amplitude 1 exactly when every bin holds
    the byte 255. *)
Theorem amplitude_one_iff_saturated (dataArray : list Byte.byte) (Hne : dataArray <> []) :
  amplitudeOf dataArray == 1 <-> Forall (fun b => b = Byte.xff) dataArray.
Proof.
  rewrite <- sumBytes_full. unfold amplitudeOf.
  assert (Hpos : (0 < Z.of_nat (length dataArray) * 255)%Z).
  { destruct dataArray; [contradiction|]. simpl length. lia. }
  pose proof (inject_Z_pos _ Hpos) as Hp.
  assert (Hnz : ~ inject_Z (Z.of_nat (length dataArray) * 255) == 0)
    by (intro E; rewrite E in Hp; discriminate Hp).
  split.
  - intro H. apply inject_Z_injective.
    assert (E : inject_Z (sumBytes dataArray) ==
                inject_Z (sumBytes dataArray) / inject_Z (Z.of_nat (length dataArray) * 255) *
                inject_Z (Z.of_nat (length dataArray) * 255)) by (field; exact Hnz).
    rewrite E, H, Qmult_1_l. rewrite Z.mul_comm. reflexivity.
  - intro H. rewrite H, (Z.mul_comm 255). field. exact Hnz.
Qed.

Lemma amplitude_one_iff_saturated_witness :
  [Byte.xff; Byte.xff; Byte.xff] <> [] /\
  (amplitudeOf [Byte.xff; Byte.xff; Byte.xff] == 1 <->
   Forall (fun b => b = Byte.xff) [Byte.xff; Byte.xff; Byte.xff]).
Proof.
  split; [discriminate|]. apply amplitude_one_iff_saturated. discriminate.
Defined.

Lemma weightedFrom_zeros (i : Z) (k : nat) (l : list Byte.byte) :
  weightedFrom i (repeat Byte.x00 k ++ l) = weightedFrom (i + Z.of_nat k) l.
Proof.
  revert i. induction k as [|k IH]; intro i; cbn [repeat app weightedFrom].
  - rewrite Z.add_0_r. reflexivity.
  - rewrite IH, Nat2Z.inj_succ. change (byteVal Byte.x00) with 0%Z.
    rewrite Z.mul_0_r, Z.add_0_l. f_equal. lia.
Qed.

Lemma sumBytes_zeros (k : nat) (l : list Byte.byte) :
  sumBytes (repeat Byte.x00 k ++ l) = sumBytes l.
Proof. induction k as [|k IH]; simpl; [reflexivity|]. rewrite IH. reflexivity. Qed.

(** A frame whose only non-zero bin is bin [k] has its spectral centroid
    at [k]. *)
Theorem centroid_single_peak (k m : nat) (b : Byte.byte) (Hb : (0 < byteVal b)%Z) :
  centroidOf (repeat Byte.x00 k ++ b :: repeat Byte.x00 m) == inject_Z (Z.of_nat k).
Proof.
  unfold centroidOf. rewrite weightedFrom_zeros, sumBytes_zeros.
  cbn [weightedFrom sumBytes].
  rewrite <- (app_nil_r (repeat Byte.x00 m)), weightedFrom_zeros, sumBytes_zeros.
  cbn [weightedFrom sumBytes]. rewrite !Z.add_0_r.
  destruct (Z.ltb_spec 0 (byteVal b)) as [_|C]; [|lia].
  rewrite Z.add_0_l, inject_Z_mult. field.
  intro E. pose proof (inject_Z_pos _ Hb) as Hp. rewrite E in Hp. discriminate Hp.
Qed.

Lemma centroid_single_peak_witness :
  (0 < byteVal Byte.x80)%Z /\
  centroidOf (repeat Byte.x00 40 ++ Byte.x80 :: repeat Byte.x00 215) == inject_Z 40.
Proof.
  split; [vm_compute; reflexivity|].
  apply (centroid_single_peak 40 215 Byte.x80). vm_compute. reflexivity.
Defined.

(** ** Amplitude smoothing of the generative variant *)

(** Over frames of one constant amplitude [c], the distance of the
    smoothed amplitude to [c] shrinks by the factor 0.9 per tick. *)
Theorem generative_amplitude_geometric (frames : list (list Byte.byte))
  (g : Generative.SystemState) (c : Q)
  (Hc : Forall (fun d => amplitudeOf d == c) frames) :
  Generative.soundAmplitude (generativeAmplitudeRun frames g) - c ==
  (Generative.soundAmplitude g - c) * qpow (9 # 10) (length frames).
Proof.
  revert g. induction Hc as [|d rest Hd Hrest IH]; intro g; simpl.
  - ring.
  - rewrite IH. simpl. rewrite Hd. ring.
Qed.

Lemma generative_amplitude_geometric_witness :
  Forall (fun d => amplitudeOf d == 1) [repeat Byte.xff 128; repeat Byte.xff 128] /\
  Generative.soundAmplitude
    (generativeAmplitudeRun [repeat Byte.xff 128; repeat Byte.xff 128]
       Generative.initialSystemState) - 1 ==
  (Generative.soundAmplitude Generative.initialSystemState - 1) * qpow (9 # 10) 2.
Proof.
  assert (H : Forall (fun d => amplitudeOf d == 1) [repeat Byte.xff 128; repeat Byte.xff 128])
    by (repeat constructor; vm_compute; reflexivity).
  split; [exact H|].
  exact (generative_amplitude_geometric _ Generative.initialSystemState 1 H).
Defined.

(** The smoothed amplitude stays in [0,1] when it starts there and every
    frame is non-empty. *)
Theorem generative_amplitude_in_unit (frames : list (list Byte.byte))
  (g : Generative.SystemState)
  (H0 : 0 <= Generative.soundAmplitude g <= 1) (Hne : Forall (fun d => d <> []) frames) :
  0 <= Generative.soundAmplitude (generativeAmplitudeRun frames g) <= 1.
Proof.
  revert g H0. induction Hne as [|d rest Hd Hrest IH]; intros g H0; simpl; [exact H0|].
  apply IH. simpl. destruct (amplitudeOf_bounds d Hd). lra.
Qed.

Lemma generative_amplitude_in_unit_witness :
  0 <= Generative.soundAmplitude Generative.initialSystemState <= 1 /\
  Forall (fun d => d <> []) [[Byte.x7f]; [Byte.xff; Byte.x00]] /\
  0 <= Generative.soundAmplitude
         (generativeAmplitudeRun [[Byte.x7f]; [Byte.xff; Byte.x00]]
            Generative.initialSystemState) <= 1.
Proof.
  assert (H0 : 0 <= Generative.soundAmplitude Generative.initialSystemState <= 1)
    by (simpl; split; discriminate).
  assert (Hne : Forall (fun d => d <> []) [[Byte.x7f]; [Byte.xff; Byte.x00]])
    by (repeat constructor; discriminate).
  split; [exact H0|]. split; [exact Hne|].
  exact (generative_amplitude_in_unit _ _ H0 Hne).
Defined.

(** ** The runtime: pause, resume and the producers *)

(** Pausing a running session (audio context running, element playing)
    and resuming it gives back the same runtime when [play()] resolves;
    when [play()] rejects, the status stays PAUSED although the audio
    context has already been resumed. *)
Theorem toggle_pause_round_trip (r : Runtime.Runtime)
  (Hst : Runtime.status r = Runtime.RUNNING) (Hctx : Runtime.ctxState r = Runtime.CtxRunning)
  (Hel : Runtime.elementPaused r = false) :
  Runtime.togglePause Runtime.PlayResolved (Runtime.togglePause Runtime.PlayResolved r) = r /\
  forall pausedAfter,
    Runtime.status (Runtime.togglePause (Runtime.PlayRejected pausedAfter)
                      (Runtime.togglePause Runtime.PlayResolved r)) = Runtime.PAUSED /\
    Runtime.ctxState (Runtime.togglePause (Runtime.PlayRejected pausedAfter)
                        (Runtime.togglePause Runtime.PlayResolved r)) = Runtime.CtxRunning.
Proof.
  destruct r as [st a rate ctx el ui]; simpl in *; subst.
  split; [reflexivity|]. intro pausedAfter. split; reflexivity.
Qed.

Lemma toggle_pause_round_trip_witness :
  Runtime.status Runtime.started = Runtime.RUNNING /\
  Runtime.ctxState Runtime.started = Runtime.CtxRunning /\
  Runtime.elementPaused Runtime.started = false /\
  Runtime.togglePause Runtime.PlayResolved
    (Runtime.togglePause Runtime.PlayResolved Runtime.started) = Runtime.started /\
  Runtime.status (Runtime.togglePause (Runtime.PlayRejected true)
                    (Runtime.togglePause Runtime.PlayResolved Runtime.started)) = Runtime.PAUSED.
Proof.
  destruct (toggle_pause_round_trip Runtime.started eq_refl eq_refl eq_refl) as [H1 H2].
  split; [reflexivity|]. split; [reflexivity|]. split; [reflexivity|].
  split; [exact H1|]. exact (proj1 (H2 true)).
Defined.

Lemma faceUpdate_sound (hypot : Q -> Q -> Q) (lc rc tp bt : Point) (s : AppTsx.State) :
  AppTsx.soundAmplitude (AppTsx.sys (AppTsx.faceUpdate hypot lc rc tp bt s)) =
    AppTsx.soundAmplitude (AppTsx.sys s) /\
  AppTsx.soundFrequency (AppTsx.sys (AppTsx.faceUpdate hypot lc rc tp bt s)) =
    AppTsx.soundFrequency (AppTsx.sys s).
Proof.
  unfold AppTsx.faceUpdate.
  destruct (debounce _ _) as [timer' stable']. split; reflexivity.
Qed.

Lemma step_keeps_bounded (hypot : Q -> Q -> Q) (ev : Runtime.Event) (r : Runtime.Runtime) :
  (forall d, ev = Runtime.AudioFrame d -> d <> []) ->
  runtimeBounded r -> runtimeBounded (Runtime.step hypot ev r).
Proof.
  intros Hd Hb. destruct ev as [f|d| |play].
  - simpl.
    destruct (AppTsx.onResults hypot f (Runtime.app r)) as [a|e] eqn:E; [|exact Hb].
    destruct Hb as [[Hm [Ha Hf]] [Hu Hr]].
    apply onResults_cases in E. destruct E as [->|[lc [rc [tp [bt ->]]]]].
    + split; [split; auto|split; assumption].
    + destruct (faceUpdate_sound hypot lc rc tp bt (Runtime.app r)) as [Ea Ef].
      split; [|split; assumption]. unfold sysBounded. cbn [Runtime.app].
      rewrite Ea, Ef, faceUpdate_openness. split; [apply clamp01_bounds|split; assumption].
  - simpl.
    assert (Hne : d <> []) by (apply Hd; reflexivity).
    destruct Hb as [[Hm [Ha Hf]] [Hu [Hr0 Hr1]]].
    unfold AppTsx.audioTick. cbn.
    destruct (amplitudeOf_bounds d Hne). destruct (normalizedFreq_in_unit d Hne).
    destruct (rate_step_in_range (AppTsx.emotion (AppTsx.sys (Runtime.app r)))
                (Runtime.playbackRate r) Hr0 Hr1).
    split; [|split; [assumption|split; assumption]].
    split; [exact Hm|split; split; assumption].
  - destruct Hb as [Hs [Hu Hr]]. split; [exact Hs|split; [exact Hs|exact Hr]].
  - destruct Hb as [Hs [Hu Hr]]. unfold Runtime.step, Runtime.togglePause.
    destruct (Runtime.status r); try (split; [exact Hs|split; assumption]);
      destruct play; (split; [exact Hs|split; assumption]).
Qed.

(** From a successful start, whatever camera frames, audio ticks, UI ticks
    and pause toggles follow (audio frames non-empty, as the analyser's
    are), mouth openness, amplitude and frequency stay in [0,1] both in the
    shared state and in the displayed snapshot, and the playback rate
    stays within [0.85, 1.15]. *)
Theorem runtime_bounded_from_start (hypot : Q -> Q -> Q) (evs : list Runtime.Event)
  (Hne : audioFramesNonEmpty evs) :
  runtimeBounded (Runtime.run hypot evs Runtime.started).
Proof.
  assert (H0 : runtimeBounded Runtime.started).
  { unfold runtimeBounded, sysBounded, sadMusicRate, happyMusicRate. simpl.
    repeat split; unfold Qle; simpl; lia. }
  revert H0. generalize Runtime.started. unfold audioFramesNonEmpty in Hne.
  induction Hne as [|ev rest Hev Hrest IH]; intros r H0; simpl; [exact H0|].
  apply IH. apply step_keeps_bounded; assumption.
Qed.

Lemma runtime_bounded_from_start_witness :
  let evs := [Runtime.AudioFrame (repeat Byte.xff 256); Runtime.UiTick;
              Runtime.FaceFrame (Some [repeat (mkPoint 0 0) 300]);
              Runtime.TogglePause Runtime.PlayResolved; Runtime.AudioFrame [Byte.x01];
              Runtime.TogglePause (Runtime.PlayRejected true); Runtime.UiTick] in
  audioFramesNonEmpty evs /\ runtimeBounded (Runtime.run (fun a b => a + b) evs Runtime.started).
Proof.
  intro evs.
  assert (Hne : audioFramesNonEmpty evs).
  { repeat constructor; intros d Hd; inversion Hd; subst; discriminate. }
  split; [exact Hne|]. exact (runtime_bounded_from_start _ evs Hne).
Defined.

(** ** Player physics *)

Lemma limit_bounds (v : Q) : - Movement.maxRange <= Movement.limit v <= Movement.maxRange.
Proof.
  unfold Movement.limit.
  set (v1 := if Qlt_bool Movement.maxRange v then Movement.maxRange else v).
  assert (H1 : v1 <= Movement.maxRange).
  { unfold v1. destruct (Qlt_bool Movement.maxRange v) eqn:E; [apply Qle_refl|].
    apply Qnot_lt_le. intro C. apply Qlt_bool_iff in C. congruence. }
  destruct (Qlt_bool v1 (- Movement.maxRange)) eqn:E2.
  - split; [apply Qle_refl|]. unfold Movement.maxRange, Movement.WORLD_EXTENT. lra.
  - split; [|exact H1]. apply Qnot_lt_le. intro C. apply Qlt_bool_iff in C. congruence.
Qed.

(** Whatever the hand input and the velocity, the player's x and z stay
    within [WORLD_EXTENT - 100] of the origin after every frame. *)
Theorem movement_position_within_world (sqrt : Q -> Q) (joyX joyY : Q) (isFist : bool)
  (p : Movement.Physics) :
  - Movement.maxRange <= Movement.posX (Movement.step sqrt joyX joyY isFist p) <= Movement.maxRange /\
  - Movement.maxRange <= Movement.posZ (Movement.step sqrt joyX joyY isFist p) <= Movement.maxRange.
Proof.
  unfold Movement.step.
  destruct (if Qlt_bool Movement.deadzone (sqrt (joyX * joyX + joyY * joyY)) then _ else _).
  cbn [Movement.posX Movement.posZ]. split; apply limit_bounds.
Qed.

Lemma step_velX (sqrt : Q -> Q) (jx jy : Q) (f : bool) (p : Movement.Physics) :
  Movement.velX (Movement.step sqrt jx jy f p) ==
  Movement.velX p * (9 # 10) +
  (if Qlt_bool Movement.deadzone (sqrt (jx * jx + jy * jy)) then jx * (25 # 10) else 0) * (1 # 10).
Proof.
  unfold Movement.step.
  destruct (Qlt_bool Movement.deadzone (sqrt (jx * jx + jy * jy))); reflexivity.
Qed.

(** With the horizontal joystick in [-1,1] (as the hand position is), the
    turning velocity stays within [-2.5, 2.5] when it starts there. *)
Theorem movement_turn_velocity_bounded (sqrt : Q -> Q) (inputs : list (Q * Q * bool))
  (p : Movement.Physics)
  (Hp : - (5 # 2) <= Movement.velX p <= 5 # 2)
  (Hin : Forall (fun i => -1 <= fst (fst i) <= 1) inputs) :
  - (5 # 2) <= Movement.velX (Movement.run sqrt inputs p) <= 5 # 2.
Proof.
  revert p Hp. induction Hin as [|[[jx jy] f] rest Hi Hrest IH]; intros p Hp; simpl;
    [exact Hp|].
  apply IH. simpl in Hi. rewrite step_velX.
  destruct (Qlt_bool Movement.deadzone (sqrt (jx * jx + jy * jy))); lra.
Qed.

Lemma movement_turn_velocity_bounded_witness :
  let inputs := [(1, 0, false); (-1, 1, true); (1 # 2, 1 # 2, false)] in
  - (5 # 2) <= Movement.velX Movement.initialPhysics <= 5 # 2 /\
  Forall (fun i => -1 <= fst (fst i) <= 1) inputs /\
  - (5 # 2) <= Movement.velX (Movement.run (fun q => q) inputs Movement.initialPhysics) <= 5 # 2.
Proof.
  intro inputs.
  assert (Hp : - (5 # 2) <= Movement.velX Movement.initialPhysics <= 5 # 2)
    by (simpl; split; discriminate).
  assert (Hin : Forall (fun i => -1 <= fst (fst i) <= 1) inputs)
    by (repeat constructor; discriminate).
  split; [exact Hp|]. split; [exact Hin|].
  exact (movement_turn_velocity_bounded (fun q => q) inputs _ Hp Hin).
Defined.

(** Inside the dead zone the hand is ignored: both velocity components
    decay by the factor 0.9. *)
Theorem movement_deadzone_decays (sqrt : Q -> Q) (joyX joyY : Q) (isFist : bool)
  (p : Movement.Physics)
  (Hdz : sqrt (joyX * joyX + joyY * joyY) <= Movement.deadzone) :
  Movement.velX (Movement.step sqrt joyX joyY isFist p) == Movement.velX p * (9 # 10) /\
  Movement.velY (Movement.step sqrt joyX joyY isFist p) == Movement.velY p * (9 # 10).
Proof.
  unfold Movement.step.
  destruct (Qlt_bool Movement.deadzone (sqrt (joyX * joyX + joyY * joyY))) eqn:E.
  - apply Qlt_bool_iff in E. exfalso. exact (Qle_not_lt _ _ Hdz E).
  - destruct isFist; cbn [Movement.velX Movement.velY]; split; ring.
Qed.

Lemma movement_deadzone_decays_witness :
  let p := Movement.mkPhysics 2 (-1) 10 10 in
  (fun q => q) (0 * 0 + (1 # 10) * (1 # 10)) <= Movement.deadzone /\
  Movement.velX (Movement.step (fun q => q) 0 (1 # 10) true p) == Movement.velX p * (9 # 10) /\
  Movement.velY (Movement.step (fun q => q) 0 (1 # 10) true p) == Movement.velY p * (9 # 10).
Proof.
  intro p.
  assert (H : (fun q => q) (0 * 0 + (1 # 10) * (1 # 10)) <= Movement.deadzone)
    by (vm_compute; discriminate).
  split; [exact H|]. exact (movement_deadzone_decays (fun q => q) 0 (1 # 10) true p H).
Defined.

(** Outside the dead zone, a fist pushes the forward velocity up and an
    open hand pushes it down (directionZ = 1 or -1). *)
Theorem movement_fist_sets_direction (sqrt : Q -> Q) (joyX joyY : Q) (isFist : bool)
  (p : Movement.Physics)
  (Hmove : Movement.deadzone < sqrt (joyX * joyX + joyY * joyY)) :
  (isFist = true ->
     Movement.velY p * (9 # 10) < Movement.velY (Movement.step sqrt joyX joyY isFist p)) /\
  (isFist = false ->
     Movement.velY (Movement.step sqrt joyX joyY isFist p) < Movement.velY p * (9 # 10)).
Proof.
  unfold Movement.step.
  destruct (Qlt_bool Movement.deadzone (sqrt (joyX * joyX + joyY * joyY))) eqn:E;
    [|apply Bool.not_true_iff_false in E; exfalso; apply E, Qlt_bool_iff, Hmove].
  unfold Movement.deadzone in *.
  split; intro Hf; subst isFist; cbn [Movement.velY]; lra.
Qed.

Lemma movement_fist_sets_direction_witness :
  Movement.deadzone < (fun q => q) (1 * 1 + 0 * 0) /\
  Movement.velY Movement.initialPhysics * (9 # 10) <
    Movement.velY (Movement.step (fun q => q) 1 0 true Movement.initialPhysics).
Proof.
  assert (H : Movement.deadzone < (fun q => q) (1 * 1 + 0 * 0)) by (vm_compute; reflexivity).
  split; [exact H|].
  apply (movement_fist_sets_direction (fun q => q) 1 0 true Movement.initialPhysics H).
  reflexivity.
Defined.

(** ** Weather, halo and colours of the render loop *)

Lemma approaches_in_interval (lo hi a b t : Q) :
  approaches a b t -> lo <= a <= hi -> lo <= t <= hi -> lo <= b <= hi.
Proof. unfold approaches. intros [[H1 H2]|[H1 H2]] [Ha1 Ha2] [Ht1 Ht2]; split; lra. Qed.

Lemma animateWeather_in_range (e : Emotion) (w : Canvas.Weather) :
  weatherInRange w -> weatherInRange (Canvas.animateWeather e w).
Proof.
  intros [Hs [Hw [Hz Hh]]].
  assert (Ht : weatherInRange (Canvas.weatherTargets e))
    by (destruct e; unfold weatherInRange; simpl; repeat split; unfold Qle; simpl; lia).
  destruct Ht as [Ts [Tw [Tz Th]]].
  unfold Canvas.animateWeather. repeat split.
  all: first [ apply (approaches_in_interval _ _ _ _ _ (blend_approaches_5 _ _) Hs Ts)
             | apply (approaches_in_interval _ _ _ _ _ (blend_approaches_5 _ _) Hw Tw)
             | apply (approaches_in_interval _ _ _ _ _ (blend_approaches_5 _ _) Hz Tz)
             | apply (approaches_in_interval _ _ _ _ _ (blend_approaches_2 _ _) Hh Th) ].
Qed.

(** From the initial weather (speed 10, sway 1, size 4, halo 0), under any
    sequence of emotions, speed stays in [6,25], sway in [0.5,2], size in
    [2.5,5] and the halo opacity in [0,0.8]. *)
Theorem weather_stays_in_range (es : list Emotion) :
  weatherInRange (weatherRun es initialWeather).
Proof.
  assert (H0 : weatherInRange initialWeather)
    by (unfold weatherInRange; simpl; repeat split; unfold Qle; simpl; lia).
  revert H0. generalize initialWeather.
  induction es as [|e rest IH]; intros w H0; simpl; [exact H0|].
  apply IH, animateWeather_in_range, H0.
Qed.

Lemma hexColor_unit (h : Z) : unitColor (Canvas.hexColor h).
Proof.
  assert (B : forall z, 0 <= inject_Z (Z.land z 255) / 255 <= 1).
  { intro z. assert (E : Z.land z 255 = (z mod 256)%Z) by exact (Z.land_ones z 8 ltac:(lia)).
    rewrite E. pose proof (Z.mod_pos_bound z 256 ltac:(lia)) as [H1 H2].
    split.
    - apply Qle_shift_div_l; [reflexivity|]. rewrite Qmult_0_l. apply inject_Z_nonneg. lia.
    - apply Qle_shift_div_r; [reflexivity|]. rewrite Qmult_1_l.
      change 255 with (inject_Z 255). rewrite <- Zle_Qle. lia. }
  unfold unitColor, Canvas.hexColor. cbn [Canvas.cr Canvas.cg Canvas.cb].
  split; [apply B|split; apply B].
Qed.

Lemma lerpColor_unit (c t : Canvas.Color) :
  unitColor c -> unitColor t -> unitColor (Canvas.lerpColor c t (5 # 100)).
Proof.
  intros [Hr [Hg Hb]] [Tr [Tg Tb]]. unfold Canvas.lerpColor, unitColor.
  cbn [Canvas.cr Canvas.cg Canvas.cb].
  split; [|split]; eapply approaches_in_interval; eauto using blend_approaches_5.
Qed.

(** Every frame of [animate] keeps the grass base and tip colours and the
    sun colour inside the RGB unit cube when they start there, whatever
    the emotion. *)
Theorem animate_colors_stay_in_unit_cube (e : Emotion) (amp : Q) (b : Canvas.Blend)
  (Hb : unitColor (Canvas.baseColor b) /\ unitColor (Canvas.tipColor b) /\
        unitColor (Canvas.sunColor b)) :
  unitColor (Canvas.baseColor (Canvas.animate e amp b)) /\
  unitColor (Canvas.tipColor (Canvas.animate e amp b)) /\
  unitColor (Canvas.sunColor (Canvas.animate e amp b)).
Proof.
  destruct Hb as [H1 [H2 H3]].
  unfold Canvas.animate.
  destruct e; cbn [Canvas.colorTargets Canvas.baseColor Canvas.tipColor Canvas.sunColor];
    repeat split; apply lerpColor_unit; auto using hexColor_unit.
Qed.

Lemma animate_colors_stay_in_unit_cube_witness :
  let b := Canvas.mkBlend (Canvas.hexColor 1714698) (Canvas.hexColor Canvas.calmColor)
             (Canvas.hexColor 16755251) (1 # 2) in
  (unitColor (Canvas.baseColor b) /\ unitColor (Canvas.tipColor b) /\
   unitColor (Canvas.sunColor b)) /\
  unitColor (Canvas.tipColor (Canvas.animate HAPPY (1 # 3) b)).
Proof.
  intro b.
  assert (Hb : unitColor (Canvas.baseColor b) /\ unitColor (Canvas.tipColor b) /\
               unitColor (Canvas.sunColor b))
    by (split; [apply hexColor_unit|split; apply hexColor_unit]).
  split; [exact Hb|].
  exact (proj1 (proj2 (animate_colors_stay_in_unit_cube HAPPY (1 # 3) b Hb))).
Defined.

(** ** The sphere visualizer *)

(** Starting within [1, 1.3] and fed non-empty audio frames, the sphere's
    scale stays within [1, 1.3] (the lerp target is 1 + amplitude * 0.3). *)
Theorem sphere_scale_within_bounds (frames : list (list Byte.byte)) (scale : Q)
  (H0 : 1 <= scale <= 13 # 10) (Hne : Forall (fun d => d <> []) frames) :
  1 <= sphereScaleRun frames scale <= 13 # 10.
Proof.
  revert scale H0. induction Hne as [|d rest Hd Hrest IH]; intros scale H0; simpl;
    [exact H0|].
  apply IH. destruct (amplitudeOf_bounds d Hd).
  unfold sphereScaleStep, mathLerp. split; lra.
Qed.

Lemma sphere_scale_within_bounds_witness :
  1 <= 1 <= 13 # 10 /\ Forall (fun d => d <> []) [repeat Byte.xff 4; [Byte.x00]] /\
  1 <= sphereScaleRun [repeat Byte.xff 4; [Byte.x00]] 1 <= 13 # 10.
Proof.
  assert (H0 : 1 <= 1 <= 13 # 10) by (split; discriminate).
  assert (Hne : Forall (fun d => d <> []) [repeat Byte.xff 4; [Byte.x00]])
    by (repeat constructor; discriminate).
  split; [exact H0|]. split; [exact Hne|].
  exact (sphere_scale_within_bounds _ 1 H0 Hne).
Defined.

(** ** The first App: [isHappy] *)

Lemma clamp01_above (v c : Q) : 0 <= c -> c < clamp01 v -> c < v.
Proof.
  intros Hc H. unfold clamp01 in H.
  destruct (Qlt_le_dec c v) as [Hv|Hv]; [exact Hv|].
  exfalso. assert (Hm : Qmax v 0 <= c) by (apply Q.max_lub; assumption).
  pose proof (Q.le_min_l (Qmax v 0) 1). lra.
Qed.

(** The first App marks the face happy only for a mouth of positive width
    whose height exceeds 0.3 times that width. *)
Theorem first_app_happy_means_open_mouth (hypot : Q -> Q -> Q) (lms : list Point)
  (rest : list (list Point)) (s s' : FirstApp.SystemState)
  (Hok : FirstApp.onResults hypot (Some (lms :: rest)) s = Ok s')
  (Hh : FirstApp.isHappy s' = true) :
  exists l r t b, nth_error lms 61 = Some l /\ nth_error lms 291 = Some r /\
    nth_error lms 13 = Some t /\ nth_error lms 14 = Some b /\
    0 < hypot (x r - x l) (y r - y l) /\
    (3 # 10) * hypot (x r - x l) (y r - y l) < hypot (x b - x t) (y b - y t).
Proof.
  unfold FirstApp.onResults, landmarkAt in Hok.
  destruct (nth_error lms 61) as [l|] eqn:El; [|discriminate Hok].
  destruct (nth_error lms 291) as [r|] eqn:Er; [|discriminate Hok].
  destruct (nth_error lms 13) as [t|] eqn:Et; [|discriminate Hok].
  destruct (nth_error lms 14) as [b|] eqn:Eb; [|discriminate Hok].
  exists l, r, t, b. repeat (split; [reflexivity|]).
  inversion Hok as [Hs]. rewrite <- Hs in Hh. cbn [FirstApp.isHappy] in Hh.
  apply Qlt_bool_iff in Hh. apply clamp01_above in Hh; [|unfold FirstApp.mouthThreshold, Qle; simpl; lia].
  unfold FirstApp.mouthThreshold in Hh.
  destruct (Qlt_bool 0 (hypot (x r - x l) (y r - y l))) eqn:Ew.
  - apply Qlt_bool_iff in Ew. split; [exact Ew|].
    set (w := hypot (x r - x l) (y r - y l)) in *.
    set (h := hypot (x b - x t) (y b - y t)) in *.
    assert (E : h == h / w * w) by (field; intro C; rewrite C in Ew; exact (Qlt_irrefl 0 Ew)).
    apply (Qmult_lt_r (3 # 10) (h / w) w Ew) in Hh. rewrite <- E in Hh. exact Hh.
  - exfalso. unfold Qlt in Hh. simpl in Hh. lia.
Qed.

Lemma first_app_happy_means_open_mouth_witness :
  let lms := repeat (mkPoint 0 0) 14 ++ [mkPoint 0 1] ++ repeat (mkPoint 0 0) 276 ++
             [mkPoint 1 0] in
  (exists s', FirstApp.onResults (fun a b => a * a + b * b) (Some [lms])
                (FirstApp.mkSystemState false 0 0 0) = Ok s' /\ FirstApp.isHappy s' = true) /\
  exists l r t b, nth_error lms 61 = Some l /\ nth_error lms 291 = Some r /\
    nth_error lms 13 = Some t /\ nth_error lms 14 = Some b /\
    0 < (fun a b => a * a + b * b) (x r - x l) (y r - y l) /\
    (3 # 10) * (fun a b => a * a + b * b) (x r - x l) (y r - y l) <
      (fun a b => a * a + b * b) (x b - x t) (y b - y t).
Proof.
  intro lms.
  destruct (FirstApp.onResults (fun a b => a * a + b * b) (Some [lms])
              (FirstApp.mkSystemState false 0 0 0)) as [s'|e] eqn:Hok;
    [|vm_compute in Hok; discriminate Hok].
  assert (Hh : FirstApp.isHappy s' = true).
  { vm_compute in Hok. inversion Hok. reflexivity. }
  split; [exists s'; split; [reflexivity|exact Hh]|].
  exact (first_app_happy_means_open_mouth _ lms [] _ s' Hok Hh).
Defined.

(** ** What each producer writes *)

Lemma debounce_timer_le5 (c : Emotion) (st : nat * Emotion) : (fst (debounce c st) <= 5)%nat.
Proof.
  destruct st as [timer stable]. unfold debounce.
  destruct (negb (Emotion_eqb c stable)); [|simpl; lia].
  destruct (Nat.ltb 5 (S timer)) eqn:E; simpl; [lia|]. apply Nat.ltb_ge in E. exact E.
Qed.

Lemma faceUpdate_emotion_timer (hypot : Q -> Q -> Q) (lc rc tp bt : Point) (s : AppTsx.State) :
  AppTsx.emotion (AppTsx.sys (AppTsx.faceUpdate hypot lc rc tp bt s)) =
    AppTsx.stableEmotion (AppTsx.refs (AppTsx.faceUpdate hypot lc rc tp bt s)) /\
  (AppTsx.emotionTimer (AppTsx.refs (AppTsx.faceUpdate hypot lc rc tp bt s)) <= 5)%nat.
Proof.
  unfold AppTsx.faceUpdate.
  match goal with |- context [debounce ?c ?st] =>
    pose proof (debounce_timer_le5 c st) as Hle; destruct (debounce c st) as [t' e'] end.
  split; [reflexivity|exact Hle].
Qed.

(** Along any run of the runtime from a successful start, the emotion in
    the shared state is always the debounced [stableEmotionRef], and the
    debounce timer never exceeds 5. *)
Theorem runtime_emotion_is_stable_emotion (hypot : Q -> Q -> Q) (evs : list Runtime.Event) :
  AppTsx.emotion (AppTsx.sys (Runtime.app (Runtime.run hypot evs Runtime.started))) =
    AppTsx.stableEmotion (AppTsx.refs (Runtime.app (Runtime.run hypot evs Runtime.started))) /\
  (AppTsx.emotionTimer (AppTsx.refs (Runtime.app (Runtime.run hypot evs Runtime.started))) <= 5)%nat.
Proof.
  assert (H0 : AppTsx.emotion (AppTsx.sys (Runtime.app Runtime.started)) =
                 AppTsx.stableEmotion (AppTsx.refs (Runtime.app Runtime.started)) /\
               (AppTsx.emotionTimer (AppTsx.refs (Runtime.app Runtime.started)) <= 5)%nat)
    by (split; [reflexivity|cbn; lia]).
  revert H0. generalize Runtime.started.
  induction evs as [|ev rest IH]; intros r H0; simpl; [exact H0|].
  apply IH. destruct ev as [f|d| |play]; simpl.
  - destruct (AppTsx.onResults hypot f (Runtime.app r)) as [a|e] eqn:E; [|exact H0].
    cbn [Runtime.app]. apply onResults_cases in E.
    destruct E as [->|[lc [rc [tp [bt ->]]]]]; [exact H0|apply faceUpdate_emotion_timer].
  - exact H0.
  - exact H0.
  - unfold Runtime.togglePause. destruct (Runtime.status r); try exact H0; destruct play; exact H0.
Qed.

(** While the shared emotion stays [e], every audio tick closes 5 percent of the
    gap between the playback rate and [e]'s target rate. *)
Theorem playback_rate_converges_geometrically (rate : Q) (e : Emotion)
  (ticks : list (list Byte.byte * AppTsx.SystemState))
  (He : Forall (fun t => AppTsx.emotion (snd t) = e) ticks) :
  AppTsx.playbackRateAfter rate ticks - targetRate e ==
  (rate - targetRate e) * qpow (19 # 20) (length ticks).
Proof.
  revert rate. induction He as [|[d s] rest Hs Hrest IH]; intro rate; simpl; [ring|].
  rewrite IH. simpl in Hs. subst e. unfold blend. ring.
Qed.

Lemma playback_rate_converges_geometrically_witness :
  let ticks := [(repeat Byte.x40 8, AppTsx.mkSystemState HAPPY 0 0 0);
                (repeat Byte.x00 8, AppTsx.mkSystemState HAPPY (1 # 2) 0 0)] in
  Forall (fun t => AppTsx.emotion (snd t) = HAPPY) ticks /\
  AppTsx.playbackRateAfter 1 ticks - targetRate HAPPY ==
  (1 - targetRate HAPPY) * qpow (19 # 20) (length ticks).
Proof.
  intro ticks.
  assert (He : Forall (fun t => AppTsx.emotion (snd t) = HAPPY) ticks)
    by (repeat constructor).
  split; [exact He|]. exact (playback_rate_converges_geometrically 1 HAPPY ticks He).
Defined.

(** ** The unguarded division of the generative face callback *)

Lemma add_NaN_r (a : JsNum.num) : JsNum.add a JsNum.NaN = JsNum.NaN.
Proof. destruct a; reflexivity. Qed.

Lemma divw_pos (a w : Q) : 0 < w -> JsNum.divw a w = JsNum.Fin (a / w).
Proof.
  intro Hw. unfold JsNum.divw.
  destruct (Qeq_bool w 0) eqn:E; [|reflexivity].
  apply Qeq_bool_iff in E. rewrite E in Hw. exfalso. exact (Qlt_irrefl 0 Hw).
Qed.

(** A detected face whose mouth has zero width and level lips (lip centre
    at the height of the corners) makes [rawCurvature] the [NaN] of [0 / 0]:
    the smoothed curvature becomes [NaN] and the emotion CALM, whatever the
    state before. *)
Theorem generative_face_zero_width_level_mouth_is_nan (hypot : Q -> Q -> Q)
  (lms : list Point) (rest : list (list Point)) (s : GenerativeFace.FaceState)
  (l r t b : Point)
  (Hl : nth_error lms 61 = Some l) (Hr : nth_error lms 291 = Some r)
  (Ht : nth_error lms 13 = Some t) (Hb : nth_error lms 14 = Some b)
  (Hw : hypot (x r - x l) (y r - y l) == 0)
  (Hlevel : (y t + y b) / 2 == (y l + y r) / 2) :
  GenerativeFace.onFaceResults hypot (Some (lms :: rest)) s =
    Ok (GenerativeFace.mkFaceState JsNum.NaN CALM).
Proof.
  unfold GenerativeFace.onFaceResults, landmarkAt. rewrite Hl, Hr, Ht, Hb.
  assert (E : JsNum.divw ((y t + y b) / 2 - (y l + y r) / 2) (hypot (x r - x l) (y r - y l)) =
              JsNum.NaN).
  { unfold JsNum.divw.
    destruct (Qeq_bool (hypot (x r - x l) (y r - y l)) 0) eqn:Ew;
      [|apply Bool.not_true_iff_false in Ew; exfalso; apply Ew, Qeq_bool_iff, Hw].
    destruct (Qlt_bool 0 ((y t + y b) / 2 - (y l + y r) / 2)) eqn:E1.
    - apply Qlt_bool_iff in E1. exfalso. lra.
    - destruct (Qlt_bool ((y t + y b) / 2 - (y l + y r) / 2) 0) eqn:E2; [|reflexivity].
      apply Qlt_bool_iff in E2. exfalso. lra. }
  rewrite E. cbn [JsNum.mulc]. rewrite add_NaN_r. reflexivity.
Qed.

Lemma generative_face_zero_width_level_mouth_is_nan_witness :
  let lms := repeat (mkPoint (1 # 2) (1 # 2)) 292 in
  nth_error lms 61 = Some (mkPoint (1 # 2) (1 # 2)) /\
  GenerativeFace.onFaceResults (fun a b => a * a + b * b) (Some [lms])
    (GenerativeFace.mkFaceState (JsNum.Fin (1 # 10)) HAPPY) =
    Ok (GenerativeFace.mkFaceState JsNum.NaN CALM).
Proof.
  intro lms. split; [reflexivity|].
  apply (generative_face_zero_width_level_mouth_is_nan (fun a b => a * a + b * b) lms []
           _ (mkPoint (1 # 2) (1 # 2)) (mkPoint (1 # 2) (1 # 2))
           (mkPoint (1 # 2) (1 # 2)) (mkPoint (1 # 2) (1 # 2)));
    try reflexivity.
Defined.

Lemma faceResults_nan_step (hypot : Q -> Q -> Q) (f : option (list (list Point)))
  (s s' : GenerativeFace.FaceState) :
  GenerativeFace.mouthCurvature s = JsNum.NaN ->
  GenerativeFace.onFaceResults hypot f s = Ok s' ->
  s' = s \/ s' = GenerativeFace.mkFaceState JsNum.NaN CALM.
Proof.
  intros Hs Hok. unfold GenerativeFace.onFaceResults in Hok.
  destruct f as [[|lms rest]|]; try (inversion Hok; left; reflexivity).
  destruct (landmarkAt lms 61), (landmarkAt lms 291), (landmarkAt lms 13), (landmarkAt lms 14);
    try discriminate Hok.
  rewrite Hs in Hok. cbn [JsNum.mulc JsNum.add JsNum.gt JsNum.lt] in Hok.
  inversion Hok. right. reflexivity.
Qed.

(** Once the smoothed curvature is [NaN] it stays [NaN] for ever: every
    later detection yields CALM (both comparisons with [NaN] are false),
    so the variant can never show HAPPY or SAD again. *)
Theorem generative_face_nan_sticks (hypot : Q -> Q -> Q)
  (frames : list (option (list (list Point)))) (s : GenerativeFace.FaceState)
  (Hs : GenerativeFace.mouthCurvature s = JsNum.NaN) :
  GenerativeFace.mouthCurvature (GenerativeFace.faceRun hypot frames s) = JsNum.NaN /\
  (GenerativeFace.emotion (GenerativeFace.faceRun hypot frames s) = CALM \/
   GenerativeFace.faceRun hypot frames s = s).
Proof.
  assert (Inv : forall s0, GenerativeFace.mouthCurvature s0 = JsNum.NaN ->
            (GenerativeFace.emotion s0 = CALM \/ s0 = s) ->
            GenerativeFace.mouthCurvature (GenerativeFace.faceRun hypot frames s0) = JsNum.NaN /\
            (GenerativeFace.emotion (GenerativeFace.faceRun hypot frames s0) = CALM \/
             GenerativeFace.faceRun hypot frames s0 = s)).
  { induction frames as [|f rest IH]; intros s0 H0 H1; simpl; [split; assumption|].
    destruct (GenerativeFace.onFaceResults hypot f s0) as [s1|e] eqn:E; [|apply IH; assumption].
    destruct (faceResults_nan_step hypot f s0 s1 H0 E) as [ -> | -> ]; [apply IH; assumption|].
    apply IH; [reflexivity|left; reflexivity]. }
  apply Inv; [exact Hs|right; reflexivity].
Qed.

Lemma generative_face_nan_sticks_witness :
  let s := GenerativeFace.mkFaceState JsNum.NaN SAD in
  let frames := [None; Some [repeat (mkPoint 0 0) 291 ++ [mkPoint 1 (1 # 5)]]] in
  GenerativeFace.mouthCurvature s = JsNum.NaN /\
  GenerativeFace.mouthCurvature (GenerativeFace.faceRun (fun a b => a * a + b * b) frames s) =
    JsNum.NaN /\
  (GenerativeFace.emotion (GenerativeFace.faceRun (fun a b => a * a + b * b) frames s) = CALM \/
   GenerativeFace.faceRun (fun a b => a * a + b * b) frames s = s).
Proof.
  intros s frames. split; [reflexivity|].
  apply generative_face_nan_sticks. reflexivity.
Defined.

Lemma faceResults_posinf_step (hypot : Q -> Q -> Q) (f : option (list (list Point)))
  (s s' : GenerativeFace.FaceState) :
  GenerativeFace.mouthCurvature s = JsNum.PosInf -> positiveWidthFrame hypot f ->
  GenerativeFace.onFaceResults hypot f s = Ok s' ->
  s' = s \/ s' = GenerativeFace.mkFaceState JsNum.PosInf HAPPY.
Proof.
  intros Hs Hf Hok. unfold GenerativeFace.onFaceResults in Hok.
  destruct f as [[|lms rest]|]; try (inversion Hok; left; reflexivity).
  unfold landmarkAt in Hok. cbn [positiveWidthFrame] in Hf.
  destruct (nth_error lms 61) as [l|] eqn:El; [|discriminate Hok].
  destruct (nth_error lms 291) as [r|] eqn:Er; [|discriminate Hok].
  destruct (nth_error lms 13) as [t|]; [|discriminate Hok].
  destruct (nth_error lms 14) as [b|]; [|discriminate Hok].
  rewrite (divw_pos _ _ (Hf l r eq_refl eq_refl)), Hs in Hok.
  cbn [JsNum.mulc JsNum.add JsNum.gt] in Hok.
  inversion Hok. right. reflexivity.
Qed.

(** An infinite curvature (left by a zero-width frame with the lip centre
    below the corners) is never washed out by later frames of positive
    width: each of them yields HAPPY again. *)
Theorem generative_face_infinity_sticks_happy (hypot : Q -> Q -> Q)
  (frames : list (option (list (list Point)))) (s : GenerativeFace.FaceState)
  (Hs : GenerativeFace.mouthCurvature s = JsNum.PosInf)
  (Hf : Forall (positiveWidthFrame hypot) frames) :
  GenerativeFace.mouthCurvature (GenerativeFace.faceRun hypot frames s) = JsNum.PosInf /\
  (GenerativeFace.emotion (GenerativeFace.faceRun hypot frames s) = HAPPY \/
   GenerativeFace.faceRun hypot frames s = s).
Proof.
  assert (Inv : forall s0, GenerativeFace.mouthCurvature s0 = JsNum.PosInf ->
            (GenerativeFace.emotion s0 = HAPPY \/ s0 = s) ->
            GenerativeFace.mouthCurvature (GenerativeFace.faceRun hypot frames s0) = JsNum.PosInf /\
            (GenerativeFace.emotion (GenerativeFace.faceRun hypot frames s0) = HAPPY \/
             GenerativeFace.faceRun hypot frames s0 = s)).
  { induction Hf as [|f rest Hf1 Hrest IH]; intros s0 H0 H1; simpl; [split; assumption|].
    destruct (GenerativeFace.onFaceResults hypot f s0) as [s1|e] eqn:E; [|apply IH; assumption].
    destruct (faceResults_posinf_step hypot f s0 s1 H0 Hf1 E) as [ -> | -> ];
      [apply IH; assumption|].
    apply IH; [reflexivity|left; reflexivity]. }
  apply Inv; [exact Hs|right; reflexivity].
Qed.

Lemma generative_face_infinity_sticks_happy_witness :
  let s := GenerativeFace.mkFaceState JsNum.PosInf CALM in
  let frames := [Some [repeat (mkPoint 0 0) 291 ++ [mkPoint 1 0]]] in
  GenerativeFace.mouthCurvature s = JsNum.PosInf /\
  Forall (positiveWidthFrame (fun a b => a * a + b * b)) frames /\
  GenerativeFace.mouthCurvature (GenerativeFace.faceRun (fun a b => a * a + b * b) frames s) =
    JsNum.PosInf /\
  (GenerativeFace.emotion (GenerativeFace.faceRun (fun a b => a * a + b * b) frames s) = HAPPY \/
   GenerativeFace.faceRun (fun a b => a * a + b * b) frames s = s).
Proof.
  intros s frames.
  assert (Hf : Forall (positiveWidthFrame (fun a b => a * a + b * b)) frames).
  { constructor; [|constructor]. cbn [positiveWidthFrame]. intros l r Hl Hr.
    vm_compute in Hl, Hr. inversion Hl. inversion Hr. subst. vm_compute. reflexivity. }
  split; [reflexivity|]. split; [exact Hf|].
  apply generative_face_infinity_sticks_happy; [reflexivity|exact Hf].
Defined.
